(** * Epilogue maintenance scripts: the design-system codemod and the
      icon alpha remover

    A shallow embedding of [Scripts/apply_design_system.py] and
    [fix_icon_alpha.py], with the properties their specification states.

    Text is a Python [str] restricted to code points below 256, one
    [ascii] per code point.  On that range the class [\d] is exactly
    [0-9] and [\s] is the set {9..13, 28..32, 0x85, 0xA0}. *)

From Stdlib Require Import String Ascii List Bool Arith Lia ZArith.
From stdpp Require Import gmap strings.

Set Warnings "-register-all".

Import ListNotations.
Open Scope string_scope.
Open Scope list_scope.

(** ** Python string operations used by the scripts *)

Module Str.

(** [s.startswith(p)] *)
Fixpoint startswith (p s : string) : bool :=
  match p, s with
  | EmptyString, _ => true
  | String a p', String b s' => Ascii.eqb a b && startswith p' s'
  | String _ _, EmptyString => false
  end.

(** [needle in hay] *)
Fixpoint contains (needle hay : string) : bool :=
  startswith needle hay ||
  match hay with
  | EmptyString => false
  | String _ hay' => contains needle hay'
  end.

(** [s[n:]] *)
Fixpoint drop (n : nat) (s : string) : string :=
  match n, s with
  | O, _ => s
  | S _, EmptyString => EmptyString
  | S n', String _ s' => drop n' s'
  end.

(** [s.endswith(suffix)] *)
Definition endswith (suffix s : string) : bool :=
  Nat.leb (String.length suffix) (String.length s) &&
  String.eqb (drop (String.length s - String.length suffix) s) suffix.

(** [s.replace(old, new, 1)]: only the leftmost occurrence is replaced. *)
Fixpoint replace_first (old new s : string) : string :=
  if startswith old s then String.append new (drop (String.length old) s)
  else match s with
       | EmptyString => EmptyString
       | String c s' => String c (replace_first old new s')
       end.

End Str.

(** ** The fragment of Python's [re] that the rule tables use *)

Module Re.

(** One-character matchers. *)
Inductive cclass : Type :=
| Lit (c : ascii)            (* a literal or escaped character *)
| AnyOf (cs : list ascii)    (* [...] *)
| Digit                      (* \d *)
| Space                      (* \s *)
| Dot.                       (* . *)

Inductive item : Type :=
| One (k : cclass)
| Star (k : cclass).         (* greedy k* *)

Definition regex : Type := list item.

Definition is_digit (c : ascii) : bool :=
  let n := nat_of_ascii c in Nat.leb 48 n && Nat.leb n 57.

Definition is_space (c : ascii) : bool :=
  let n := nat_of_ascii c in
  (Nat.leb 9 n && Nat.leb n 13) || (Nat.leb 28 n && Nat.leb n 32)
  || Nat.eqb n 133 || Nat.eqb n 160.

Definition in_class (k : cclass) (c : ascii) : bool :=
  match k with
  | Lit a => Ascii.eqb a c
  | AnyOf cs => existsb (Ascii.eqb c) cs
  | Digit => is_digit c
  | Space => is_space c
  | Dot => negb (Ascii.eqb c "010")
  end.

(** *** Reading a pattern

    The scanner keeps the items read so far (latest first) and what it
    is in the middle of: nothing, an escape, or a bracket set. *)
Inductive pending : Type :=
| Plain
| Escaped
| Bracket (acc : list ascii).

Definition escape_class (c : ascii) : cclass :=
  if Ascii.eqb c "d" then Digit
  else if Ascii.eqb c "s" then Space
  else Lit c.

Definition star_last (its : list item) : list item :=
  match its with
  | One k :: rest => Star k :: rest
  | _ => its
  end.

Definition scan (st : list item * pending) (c : ascii) : list item * pending :=
  let (its, p) := st in
  match p with
  | Escaped => (One (escape_class c) :: its, Plain)
  | Bracket acc =>
      if Ascii.eqb c "]" then (One (AnyOf (rev acc)) :: its, Plain)
      else (its, Bracket (c :: acc))
  | Plain =>
      if Ascii.eqb c "\" then (its, Escaped)
      else if Ascii.eqb c "[" then (its, Bracket [])
      else if Ascii.eqb c "*" then (star_last its, Plain)
      else if Ascii.eqb c "." then (One Dot :: its, Plain)
      else (One (Lit c) :: its, Plain)
  end.

Definition compile (pattern : string) : regex :=
  rev (fst (fold_left scan (list_ascii_of_string pattern) ([], Plain))).

(** *** Matching at a position

    [match_here r s] is the number of characters of [s] consumed by the
    match of [r] anchored at the start of [s] that the backtracking
    matcher finds first: a star takes as many characters as it can and
    gives them back one at a time while the rest fails. *)
Fixpoint match_here (r : regex) (s : string) : option nat :=
  match r with
  | [] => Some 0
  | One k :: r' =>
      match s with
      | String c s' =>
          if in_class k c then option_map S (match_here r' s') else None
      | EmptyString => None
      end
  | Star k :: r' =>
      (fix star (s : string) : option nat :=
         match s with
         | String c s' =>
             if in_class k c then
               match star s' with
               | Some n => Some (S n)
               | None => match_here r' s
               end
             else match_here r' s
         | EmptyString => match_here r' s
         end) s
  end.

(** [re.search]: start and length of the leftmost match. *)
Fixpoint search (r : regex) (s : string) : option (nat * nat) :=
  match match_here r s with
  | Some n => Some (0, n)
  | None =>
      match s with
      | EmptyString => None
      | String _ s' =>
          match search r s' with
          | Some (i, n) => Some (S i, n)
          | None => None
          end
      end
  end.

(** [re.fullmatch], as a test. *)
Definition fullmatch (r : regex) (s : string) : bool :=
  match match_here r s with
  | Some n => Nat.eqb n (String.length s)
  | None => false
  end.

(** *** Substitution

    [sub_from skip r repl s] rewrites [s] from the left.  While [skip]
    is positive the characters belong to the match just replaced and
    are dropped.  At a position where [r] matches, [repl] is emitted;
    elsewhere the character is copied.  An empty match emits [repl] and
    copies the character.  The replacement texts of the tables hold no
    backslash, so they are emitted as they are. *)
Fixpoint sub_from (skip : nat) (r : regex) (repl s : string) : string :=
  match skip with
  | S k =>
      match s with
      | EmptyString => EmptyString
      | String _ s' => sub_from k r repl s'
      end
  | O =>
      match match_here r s with
      | Some (S n) =>
          String.append repl
            match s with
            | EmptyString => EmptyString
            | String _ s' => sub_from n r repl s'
            end
      | Some O =>
          String.append repl
            match s with
            | EmptyString => EmptyString
            | String c s' => String c (sub_from 0 r repl s')
            end
      | None =>
          match s with
          | EmptyString => EmptyString
          | String c s' => String c (sub_from 0 r repl s')
          end
      end
  end.

(** [re.sub(pattern, repl, string)] *)
Definition sub (pattern repl s : string) : string :=
  sub_from 0 (compile pattern) repl s.

End Re.

(** ** Exceptions and the result of a computation that may raise *)

(** An exception caught by [except Exception as e]; [text] is [str(e)]. *)
Inductive exn : Type :=
| Exception (text : string).

Definition exn_text (e : exn) : string :=
  match e with Exception t => t end.

Inductive result (A : Type) : Type :=
| Ok (a : A)
| Raise (e : exn).

Arguments Ok {A} a.
Arguments Raise {A} e.

Definition bind {A B : Type} (m : result A) (k : A -> result B) : result B :=
  match m with
  | Ok a => k a
  | Raise e => Raise e
  end.

Notation "x <- m ;; k" := (bind m (fun x => k))
  (at level 60, m at next level, right associativity).

(** ** POSIX paths *)

Module Path.

(** [os.path.join(a, b)] *)
Definition join (a b : string) : string :=
  if Str.startswith "/" b then b
  else if String.eqb a "" || Str.endswith "/" a then String.append a b
  else String.append a (String.append "/" b).

End Path.

(** ** The codemod, [Scripts/apply_design_system.py] *)

Module Codemod.

Definition BASE_DIR : string := "/Users/kris/Epilogue/Epilogue/Epilogue".

(** A rule is a pattern, as written in the source, and its replacement. *)
Definition rule : Type := string * string.

Definition COLOR_REPLACEMENTS : list rule :=
  [ ("Color\(red: 1\.0, green: 0\.55, blue: 0\.26\)", "DesignSystem.Colors.primaryAccent");
    ("Color\(red: 0\.11, green: 0\.105, blue: 0\.102\)", "DesignSystem.Colors.surfaceBackground");
    ("\.white\.opacity\(0\.7\d*\)", "DesignSystem.Colors.textSecondary");
    ("\.white\.opacity\(0\.5\d*\)", "DesignSystem.Colors.textTertiary");
    ("\.white\.opacity\(0\.3\d*\)", "DesignSystem.Colors.textQuaternary");
    ("Color\.white\.opacity\(0\.7\d*\)", "DesignSystem.Colors.textSecondary");
    ("Color\.white\.opacity\(0\.5\d*\)", "DesignSystem.Colors.textTertiary");
    ("Color\.white\.opacity\(0\.3\d*\)", "DesignSystem.Colors.textQuaternary") ].

Definition OPACITY_REPLACEMENTS : list rule :=
  [ ("\.opacity\(0\.03\)", ".opacity(0.05)");
    ("\.opacity\(0\.04\)", ".opacity(0.05)");
    ("\.opacity\(0\.06\)", ".opacity(0.05)");
    ("\.opacity\(0\.07\)", ".opacity(0.05)");
    ("\.opacity\(0\.08\)", ".opacity(0.10)");
    ("\.opacity\(0\.09\)", ".opacity(0.10)");
    ("\.opacity\(0\.12\)", ".opacity(0.10)");
    ("\.opacity\(0\.13\)", ".opacity(0.15)");
    ("\.opacity\(0\.14\)", ".opacity(0.15)");
    ("\.opacity\(0\.16\)", ".opacity(0.15)");
    ("\.opacity\(0\.17\)", ".opacity(0.15)");
    ("\.opacity\(0\.18\)", ".opacity(0.20)");
    ("\.opacity\(0\.19\)", ".opacity(0.20)");
    ("\.opacity\(0\.22\)", ".opacity(0.20)");
    ("\.opacity\(0\.23\)", ".opacity(0.25)");
    ("\.opacity\(0\.24\)", ".opacity(0.25)");
    ("\.opacity\(0\.26\)", ".opacity(0.25)");
    ("\.opacity\(0\.27\)", ".opacity(0.25)");
    ("\.opacity\(0\.28\)", ".opacity(0.30)");
    ("\.opacity\(0\.29\)", ".opacity(0.30)");
    ("\.opacity\(0\.32\)", ".opacity(0.30)");
    ("\.opacity\(0\.33\)", ".opacity(0.35)");
    ("\.opacity\(0\.34\)", ".opacity(0.35)");
    ("\.opacity\(0\.36\)", ".opacity(0.35)");
    ("\.opacity\(0\.37\)", ".opacity(0.35)");
    ("\.opacity\(0\.38\)", ".opacity(0.40)");
    ("\.opacity\(0\.39\)", ".opacity(0.40)");
    ("\.opacity\(0\.42\)", ".opacity(0.40)");
    ("\.opacity\(0\.43\)", ".opacity(0.45)");
    ("\.opacity\(0\.44\)", ".opacity(0.45)");
    ("\.opacity\(0\.46\)", ".opacity(0.45)");
    ("\.opacity\(0\.47\)", ".opacity(0.45)");
    ("\.opacity\(0\.48\)", ".opacity(0.50)");
    ("\.opacity\(0\.49\)", ".opacity(0.50)");
    ("\.opacity\(0\.52\)", ".opacity(0.50)");
    ("\.opacity\(0\.53\)", ".opacity(0.55)");
    ("\.opacity\(0\.54\)", ".opacity(0.55)");
    ("\.opacity\(0\.56\)", ".opacity(0.55)");
    ("\.opacity\(0\.57\)", ".opacity(0.55)");
    ("\.opacity\(0\.58\)", ".opacity(0.60)");
    ("\.opacity\(0\.59\)", ".opacity(0.60)");
    ("\.opacity\(0\.62\)", ".opacity(0.60)");
    ("\.opacity\(0\.63\)", ".opacity(0.65)");
    ("\.opacity\(0\.64\)", ".opacity(0.65)");
    ("\.opacity\(0\.66\)", ".opacity(0.65)");
    ("\.opacity\(0\.67\)", ".opacity(0.65)");
    ("\.opacity\(0\.68\)", ".opacity(0.70)");
    ("\.opacity\(0\.69\)", ".opacity(0.70)");
    ("\.opacity\(0\.72\)", ".opacity(0.70)");
    ("\.opacity\(0\.73\)", ".opacity(0.75)");
    ("\.opacity\(0\.74\)", ".opacity(0.75)");
    ("\.opacity\(0\.76\)", ".opacity(0.75)");
    ("\.opacity\(0\.77\)", ".opacity(0.75)");
    ("\.opacity\(0\.78\)", ".opacity(0.80)");
    ("\.opacity\(0\.79\)", ".opacity(0.80)");
    ("\.opacity\(0\.82\)", ".opacity(0.80)");
    ("\.opacity\(0\.83\)", ".opacity(0.85)");
    ("\.opacity\(0\.84\)", ".opacity(0.85)");
    ("\.opacity\(0\.86\)", ".opacity(0.85)");
    ("\.opacity\(0\.87\)", ".opacity(0.85)");
    ("\.opacity\(0\.88\)", ".opacity(0.90)");
    ("\.opacity\(0\.89\)", ".opacity(0.90)");
    ("\.opacity\(0\.92\)", ".opacity(0.90)");
    ("\.opacity\(0\.93\)", ".opacity(0.95)");
    ("\.opacity\(0\.94\)", ".opacity(0.95)");
    ("\.opacity\(0\.96\)", ".opacity(0.95)");
    ("\.opacity\(0\.97\)", ".opacity(0.95)");
    ("\.opacity\(0\.98\)", ".opacity(1.0)");
    ("\.opacity\(0\.99\)", ".opacity(1.0)") ].

Definition CORNER_RADIUS_REPLACEMENTS : list rule :=
  [ ("cornerRadius:\s*14", "cornerRadius: DesignSystem.CornerRadius.card");
    ("cornerRadius:\s*16", "cornerRadius: DesignSystem.CornerRadius.card");
    ("cornerRadius:\s*18", "cornerRadius: DesignSystem.CornerRadius.card");
    ("cornerRadius:\s*20", "cornerRadius: DesignSystem.CornerRadius.large");
    ("cornerRadius:\s*10", "cornerRadius: DesignSystem.CornerRadius.medium");
    ("cornerRadius:\s*12", "cornerRadius: DesignSystem.CornerRadius.medium");
    ("cornerRadius:\s*8", "cornerRadius: DesignSystem.CornerRadius.small");
    ("cornerRadius:\s*6", "cornerRadius: DesignSystem.CornerRadius.small") ].

Definition ANIMATION_REPLACEMENTS : list rule :=
  [ ("\.spring\(response:\s*0\.3,\s*dampingFraction:\s*0\.[678]\)", "DesignSystem.Animation.springStandard");
    ("\.spring\(response:\s*0\.3,\s*dampingFraction:\s*0\.8\)", "DesignSystem.Animation.springStandard");
    ("\.spring\(response:\s*0\.4,\s*dampingFraction:\s*0\.8[05]\)", "DesignSystem.Animation.springSmooth");
    ("\.spring\(response:\s*0\.2,\s*dampingFraction:\s*0\.[78]\)", "DesignSystem.Animation.springQuick");
    ("\.easeInOut\(duration:\s*0\.2\)", "DesignSystem.Animation.easeQuick");
    ("\.easeInOut\(duration:\s*0\.3\)", "DesignSystem.Animation.easeStandard") ].

Definition HAPTIC_REPLACEMENTS : list rule :=
  [ ("HapticManager\.shared\.lightTap\(\)", "DesignSystem.HapticFeedback.light()");
    ("HapticManager\.shared\.mediumTap\(\)", "DesignSystem.HapticFeedback.medium()");
    ("HapticManager\.shared\.success\(\)", "DesignSystem.HapticFeedback.success()");
    ("HapticManager\.shared\.warning\(\)", "DesignSystem.HapticFeedback.warning()");
    ("HapticManager\.shared\.selectionChanged\(\)", "DesignSystem.HapticFeedback.selection()") ].

Definition PADDING_REPLACEMENTS : list rule :=
  [ ("\.padding\(24\)", ".padding(DesignSystem.Spacing.cardPadding)");
    ("\.padding\(16\)", ".padding(DesignSystem.Spacing.inlinePadding)");
    ("\.padding\(20\)", ".padding(DesignSystem.Spacing.listItemPadding)");
    ("\.padding\(\.horizontal,\s*24\)", ".padding(.horizontal, DesignSystem.Spacing.cardPadding)");
    ("\.padding\(\.horizontal,\s*16\)", ".padding(.horizontal, DesignSystem.Spacing.inlinePadding)");
    ("\.padding\(\.horizontal,\s*20\)", ".padding(.horizontal, DesignSystem.Spacing.listItemPadding)") ].

Definition ALL_TABLES : list (list rule) :=
  [ COLOR_REPLACEMENTS; OPACITY_REPLACEMENTS; CORNER_RADIUS_REPLACEMENTS;
    ANIMATION_REPLACEMENTS; HAPTIC_REPLACEMENTS; PADDING_REPLACEMENTS ].

Definition ALL_RULES : list rule := concat ALL_TABLES.

(** [for pattern, replacement in table: content = re.sub(pattern, replacement, content)] *)
Definition apply_table (table : list rule) (content : string) : string :=
  fold_left (fun c (r : rule) => Re.sub (fst r) (snd r) c) table content.

(** The six loops of [process_file], in their order. *)
Definition apply_all (content : string) : string :=
  let content := apply_table COLOR_REPLACEMENTS content in
  let content := apply_table OPACITY_REPLACEMENTS content in
  let content := apply_table CORNER_RADIUS_REPLACEMENTS content in
  let content := apply_table ANIMATION_REPLACEMENTS content in
  let content := apply_table HAPTIC_REPLACEMENTS content in
  let content := apply_table PADDING_REPLACEMENTS content in
  content.

(** The import step taken on a modified file. *)
Definition add_import (content : string) : string :=
  if Str.contains "import SwiftUI" content
     && negb (Str.contains "DesignSystem" content)
  then Str.replace_first "import SwiftUI"
         (String.append "import SwiftUI" (String "010" "import DesignSystem"))
         content
  else content.

(** *** Files

    What the script can observe of a file: what reading it as text gives
    (its text, or the exception that [open] or [read] raises) and the
    exception, if any, that opening it for writing raises.  A path absent
    from the disk is a missing file. *)
Record file : Type := mkFile {
  reading : result string;
  write_error : option exn
}.

Definition plain_file (text : string) : file :=
  {| reading := Ok text; write_error := None |}.

Definition repr (s : string) : string :=
  String.append "'" (String.append s "'").

Definition FileNotFoundError (filepath : string) : exn :=
  Exception (String.append "[Errno 2] No such file or directory: " (repr filepath)).

(** [with open(filepath, 'r') as f: content = f.read()] *)
Definition read_text (fs : gmap string file) (filepath : string) : result string :=
  match fs !! filepath with
  | None => Raise (FileNotFoundError filepath)
  | Some f => reading f
  end.

(** [with open(filepath, 'w') as f: f.write(content)]: the file is replaced
    in full, or created; a file that cannot be opened for writing is left
    as it was. *)
Definition write_text (fs : gmap string file) (filepath content : string)
  : result (gmap string file) :=
  match fs !! filepath with
  | None => Ok (<[filepath := plain_file content]> fs)
  | Some f =>
      match write_error f with
      | Some e => Raise e
      | None => Ok (<[filepath := plain_file content]> fs)
      end
  end.

(** *** Observable effects, in the order they happen *)
Inductive event : Type :=
| Wrote (filepath content : string)  (* a completed write of the whole file *)
| Line (text : string)               (* print(text) *)
| Banner                             (* the two opening lines of main *)
| Found (n : nat)                    (* "Found {n} Swift files" *)
| Updated (filepath : string)        (* "Updated: {relpath(filepath, BASE_DIR)}" *)
| Complete (n : nat).                (* "Complete! Modified {n} files" *)

Definition error_line (filepath : string) (e : exn) : string :=
  String.append "Error processing "
    (String.append filepath (String.append ": " (exn_text e))).

(** The body of the [try] of [process_file]. *)
Definition process_file_body (fs : gmap string file) (filepath : string)
  : result (bool * gmap string file * list event) :=
  original_content <- read_text fs filepath ;;
  (let content := apply_all original_content in
   if negb (String.eqb content original_content) then
     (let content := add_import content in
      fs' <- write_text fs filepath content ;;
      Ok (true, fs', [Wrote filepath content]))
   else Ok (false, fs, [])).

(** [process_file(filepath)]: the returned flag, the disk afterwards and
    the effects. *)
Definition process_file (fs : gmap string file) (filepath : string)
  : bool * gmap string file * list event :=
  match process_file_body fs filepath with
  | Ok r => r
  | Raise e => (false, fs, [Line (error_line filepath e)])
  end.

(** *** Directory trees and [os.walk] *)
Inductive dtree : Type :=
| Dir (files : list string) (subdirs : list (string * dtree)).

(** [os.walk(top)], top-down: the triple of a directory, then the walks of
    its subdirectories in turn. *)
Fixpoint walk (top : string) (t : dtree)
  : list (string * list string * list string) :=
  match t with
  | Dir files subdirs =>
      (top, map fst subdirs, files)
      :: flat_map (fun nd => walk (Path.join top (fst nd)) (snd nd)) subdirs
  end.

Definition skipped (root : string) : bool :=
  Str.contains "DesignSystem.swift" root
  || (Str.contains ".build" root || Str.contains "DerivedData" root).

(** The inner loop of the discovery: [for file in files]. *)
Definition collect (root : string) (files swift_files : list string) : list string :=
  fold_left
    (fun acc file =>
       if Str.endswith ".swift" file then acc ++ [Path.join root file] else acc)
    files swift_files.

(** The outer loop: [for root, dirs, files in os.walk(BASE_DIR)]. *)
Definition find_swift_files (base : string) (t : dtree) : list string :=
  fold_left
    (fun swift_files (entry : string * list string * list string) =>
       let '(root, _, files) := entry in
       if skipped root then swift_files
       else collect root files swift_files)
    (walk base t) [].

(** The processing loop of [main]: disk, [modified_count] and effects. *)
Definition process_step (st : gmap string file * nat * list event) (filepath : string)
  : gmap string file * nat * list event :=
  let '(fs, modified_count, out) := st in
  let '(modified, fs', printed) := process_file fs filepath in
  if modified then (fs', S modified_count, out ++ printed ++ [Updated filepath])
  else (fs', modified_count, out ++ printed).

Definition process_files (fs : gmap string file) (swift_files : list string)
  : gmap string file * nat * list event :=
  fold_left process_step swift_files (fs, 0, []).

Definition main (t : dtree) (fs : gmap string file) : gmap string file * list event :=
  let swift_files := find_swift_files BASE_DIR t in
  let '(fs', modified_count, out) := process_files fs swift_files in
  (fs', [Banner; Found (length swift_files)] ++ out ++ [Complete modified_count]).

End Codemod.


(** ** The icon alpha remover, [fix_icon_alpha.py]

    An image is what the script sees of a PIL image: its mode, its size
    and, per pixel in row-major order, the values of its bands.  Characters
    above 255 occur only in the printed messages, where they stand as
    their UTF-8 bytes. *)

Module IconAlpha.

Record image : Type := mkImage {
  mode : string;
  size : nat * nat;            (* width, height *)
  pixels : list (list Z)       (* one list of band values per pixel *)
}.

(** What a path holds: an image file, or a file that is not an image. *)
Inductive entry : Type :=
| ImageFile (img : image)
| OtherFile.

Inductive event : Type :=
| Saved (path : string) (img : image)   (* a completed save *)
| Line (text : string).                 (* print(text) *)

Definition is_saved (ev : event) : bool :=
  match ev with Saved _ _ => true | Line _ => false end.

(** [os.path.exists(path)] *)
Definition path_exists (fs : gmap string entry) (path : string) : bool :=
  match fs !! path with Some _ => true | None => false end.

(** [Image.open(path)] *)
Definition open (fs : gmap string entry) (path : string) : result image :=
  match fs !! path with
  | Some (ImageFile img) => Ok img
  | Some OtherFile =>
      Raise (Exception (String.append "cannot identify image file "
                          (Codemod.repr path)))
  | None => Raise (Codemod.FileNotFoundError path)
  end.

(** [Image.new(mode, size, color)] *)
Definition new (m : string) (sz : nat * nat) (color : list Z) : image :=
  {| mode := m; size := sz; pixels := repeat color (fst sz * snd sz) |}.

(** Number of bands of a mode. *)
Definition bands (m : string) : nat :=
  if existsb (String.eqb m) ["RGBA"; "CMYK"; "RGBX"; "RGBa"] then 4
  else if existsb (String.eqb m) ["RGB"; "YCbCr"; "LAB"; "HSV"] then 3
  else if existsb (String.eqb m) ["LA"; "PA"; "La"] then 2
  else 1.

Definition band (k : nat) (px : list Z) : Z := nth k px 0%Z.

(** [img.split()]: one single-band image per band. *)
Definition split (img : image) : list image :=
  map (fun k => {| mode := "L"; size := size img;
                   pixels := map (fun px => [band k px]) (pixels img) |})
      (seq 0 (bands (mode img))).

(** [t[k]] on a tuple. *)
Definition item {A : Type} (t : list A) (k : nat) : result A :=
  match nth_error t k with
  | Some a => Ok a
  | None => Raise (Exception "tuple index out of range")
  end.

(** The three colour values that pasting into an RGB image reads from a
    pixel of the given image: its first three bands, and for a
    grey-with-alpha image its grey level three times. *)
Definition colour (m : string) (px : list Z) : list Z :=
  if String.eqb m "LA" then [band 0 px; band 0 px; band 0 px]
  else [band 0 px; band 1 px; band 2 px].

Section Pillow.

(** [blend m current given]: the value [paste] leaves in a band where the
    mask is [m]. *)
Variable blend : Z -> Z -> Z -> Z.

(** The modes the PNG writer accepts. *)
Variable png_can_write : string -> bool.

Definition paste_pixel (m : string) (cur : list Z) (given mask : list Z) : list Z :=
  map (fun cg => blend (band 0 mask) (fst cg) (snd cg))
      (combine cur (colour m given)).

(** [background.paste(img, mask=mask)] on an RGB [background] of the size
    of [img]. *)
Definition paste (background img mask : image) : image :=
  {| mode := mode background;
     size := size background;
     pixels :=
       map (fun t => paste_pixel (mode img) (fst (fst t)) (snd (fst t)) (snd t))
           (combine (combine (pixels background) (pixels img)) (pixels mask)) |}.

(** [img.save(path, 'PNG', optimize=True, quality=100)] *)
Definition save (img : image) (path : string) : result (list event) :=
  if png_can_write (mode img) then Ok [Saved path img]
  else Raise (Exception (String.append "cannot write mode "
                           (String.append (mode img) " as PNG"))).

Definition remove_alpha (fs : gmap string entry) (input_path output_path : string)
  : result (list event) :=
  img <- open fs input_path ;;
  if existsb (String.eqb (mode img)) ["RGBA"; "LA"] then
    (let background := new "RGB" (size img) [255; 255; 255]%Z in
     background <-
       (if String.eqb (mode img) "RGBA" then
          mask <- item (split img) 3 ;; Ok (paste background img mask)
        else
          mask <- item (split img) 1 ;; Ok (paste background img mask)) ;;
     saved <- save background output_path ;;
     Ok (saved ++
         [Line (String.append "✅ Removed alpha channel from " input_path);
          Line (String.append "   Saved to: " output_path)]))
  else
    (saved <- save img output_path ;;
     Ok (saved ++
         [Line (String.append "ℹ️ Image has no alpha channel, copied to "
                  output_path)])).

Definition icon_dir : string :=
  "/Users/kris/Epilogue/Epilogue/Epilogue/Assets.xcassets/AppIcon.appiconset".
Definition input_file : string := Path.join icon_dir "AppIcon-1024-original.png".
Definition output_file : string := Path.join icon_dir "AppIcon-1024.png".

(** The [__main__] block: exit status and effects. *)
Definition script (fs : gmap string entry) : nat * list event :=
  if negb (path_exists fs input_file) then
    (1, [Line (String.append "❌ Error: " (String.append input_file " not found"))])
  else
    match remove_alpha fs input_file output_file with
    | Ok evs => (0, evs)
    | Raise e => (1, [Line (String.append "❌ Error: " (exn_text e))])
    end.

End Pillow.

(** The mixing of the library's paste loop, on band values [0..255]. *)
Definition DIV255 (a : Z) : Z :=
  let tmp := (a + 128)%Z in Z.shiftr (Z.shiftr tmp 8 + tmp) 8.

Definition BLEND8 (mask in1 in2 : Z) : Z :=
  DIV255 (in1 * (255 - mask) + in2 * mask).

(** A mixing function defined on all of [Z] that is [BLEND8] on band
    values (lemma [mix_BLEND8] below). *)
Definition mix (mask in1 in2 : Z) : Z :=
  if (mask =? 0)%Z then in1
  else if (mask =? 255)%Z then in2
  else BLEND8 mask in1 in2.

(** The modes of the PNG writer's table. *)
Definition PNG_OUTMODES : list string :=
  ["1"; "L;1"; "L;2"; "L;4"; "L"; "LA"; "I;16"; "I;16B";
   "P;1"; "P;2"; "P;4"; "P"; "RGB"; "RGBA"].

Definition png_outmode (m : string) : bool := existsb (String.eqb m) PNG_OUTMODES.

End IconAlpha.

(** ** Vocabulary of the properties *)

Definition no_match_in (table : list Codemod.rule) (s : string) : Prop :=
  Forall (fun r : Codemod.rule => Re.search (Re.compile (fst r)) s = None) table.

Definition is_write (ev : Codemod.event) : bool :=
  match ev with Codemod.Wrote _ _ => true | _ => false end.

Definition newline : string := String "010" EmptyString.

Definition one_file (filepath text : string) : gmap string Codemod.file :=
  {[ filepath := Codemod.plain_file text ]}.

Definition three_files : gmap string Codemod.file :=
  <["/a.swift" := Codemod.plain_file ".padding(24)"]>
    (<["/c.swift" := Codemod.plain_file ".padding(16)"]> ∅).

Definition no_matchb (table : list Codemod.rule) (s : string) : bool :=
  forallb (fun r : Codemod.rule =>
             match Re.search (Re.compile (fst r)) s with
             | None => true
             | Some _ => false
             end) table.

Definition idempotent_at (text : string) : Prop :=
  Codemod.apply_all (Codemod.apply_all text) = Codemod.apply_all text.

(** A value of [n] hundredths as the source writes it. *)
Definition two_digits (n : nat) : string :=
  String (ascii_of_nat (48 + n / 10))
    (String (ascii_of_nat (48 + n mod 10)) EmptyString).

Definition opacity_literal (n : nat) : string :=
  ".opacity(0." +:+ two_digits n +:+ ")".

Definition opacity_text (n : nat) : string :=
  if Nat.eqb n 100 then ".opacity(1.0)" else opacity_literal n.

Definition dist (a b : nat) : nat := (a - b) + (b - a).

(** [m] is a multiple of 5 hundredths, and no other is nearer to [n]. *)
Definition nearest_step (n m : nat) : Prop :=
  m mod 5 = 0 /\ forall k, k mod 5 = 0 -> dist n m <= dist n k.

Definition snap (n : nat) : nat := 5 * ((n + 2) / 5).

Definition has_rule_to_nearest (n : nat) : Prop :=
  exists r : Codemod.rule,
    In r Codemod.OPACITY_REPLACEMENTS
    /\ Re.fullmatch (Re.compile (fst r)) (opacity_literal n) = true
    /\ exists m, nearest_step n m /\ snd r = opacity_text m.

Definition rule_fits (n : nat) (r : Codemod.rule) : bool :=
  Re.fullmatch (Re.compile (fst r)) (opacity_literal n)
  && String.eqb (snd r) (opacity_text (snap n)).

Definition has_rule (n : nat) : bool :=
  (3 <=? n)%nat && negb (Nat.eqb (n mod 5) 0) && negb (Nat.eqb (n mod 10) 1).

Definition row_ok (n : nat) : bool :=
  if has_rule n then
    existsb (rule_fits n) Codemod.OPACITY_REPLACEMENTS
    && String.eqb (Codemod.apply_table Codemod.OPACITY_REPLACEMENTS (opacity_literal n))
         (opacity_text (snap n))
  else no_matchb Codemod.OPACITY_REPLACEMENTS (opacity_literal n).

(** [located top t chain root name]: in the tree [t] walked from the path
    [top], the directory of path [root] holds a file called [name];
    [chain] lists the paths of the directories from [top] down to [root]. *)
Inductive located
  : string -> Codemod.dtree -> list string -> string -> string -> Prop :=
| located_here top files subdirs name :
    In name files ->
    located top (Codemod.Dir files subdirs) [top] top name
| located_below top files subdirs d sub chain root name :
    In (d, sub) subdirs ->
    located (Path.join top d) sub chain root name ->
    located top (Codemod.Dir files subdirs) (top :: chain) root name.

(** No directory name starts with a slash. *)
Fixpoint plain_names (t : Codemod.dtree) : bool :=
  match t with
  | Codemod.Dir _ subdirs =>
      forallb (fun nd => negb (Str.startswith "/" (fst nd)) && plain_names (snd nd))
        subdirs
  end.

Definition found_in (root : string) (files : list string) : list string :=
  map (Path.join root) (List.filter (Str.endswith ".swift") files).

Definition found_at (entry : string * list string * list string) : list string :=
  if Codemod.skipped (fst (fst entry)) then []
  else found_in (fst (fst entry)) (snd entry).

Definition sample_tree : Codemod.dtree :=
  Codemod.Dir ["App.swift"; "notes.txt"]
    [ ("Views", Codemod.Dir ["Card.swift"] []);
      (".build", Codemod.Dir ["Gen.swift"]
                   [("debug", Codemod.Dir ["Deep.swift"] [])]) ].

(** The alpha value of a pixel of an image with an alpha channel: the
    fourth band of RGBA, the second of LA. *)
Definition alpha_value (m : string) (px : list Z) : Z :=
  if String.eqb m "RGBA" then IconAlpha.band 3 px else IconAlpha.band 1 px.

Definition white : list Z := [255; 255; 255]%Z.

(** The alpha band of [img] as a mask. *)
Definition alpha_mask (img : IconAlpha.image) : IconAlpha.image :=
  {| IconAlpha.mode := "L"; IconAlpha.size := IconAlpha.size img;
     IconAlpha.pixels :=
       map (fun px => [alpha_value (IconAlpha.mode img) px]) (IconAlpha.pixels img) |}.

(** The white canvas with [img] pasted through its alpha band. *)
Definition flattened (blend : Z -> Z -> Z -> Z) (img : IconAlpha.image)
  : IconAlpha.image :=
  IconAlpha.paste blend (IconAlpha.new "RGB" (IconAlpha.size img) white) img
    (alpha_mask img).

(** [img.getpixel((x, y))] *)
Definition getpixel (img : IconAlpha.image) (x y : nat) : option (list Z) :=
  nth_error (IconAlpha.pixels img) (y * fst (IconAlpha.size img) + x).

(** A 2 by 2 RGBA icon: transparent at (0,0), opaque red at (1,1). *)
Definition sample_icon : IconAlpha.image :=
  {| IconAlpha.mode := "RGBA"; IconAlpha.size := (2, 2);
     IconAlpha.pixels :=
       [[12; 34; 56; 0]; [9; 9; 9; 128]; [0; 0; 255; 77]; [255; 0; 0; 255]]%Z |}.

(** A 2 by 1 RGBA image: an opaque pixel of three different band values,
    then a transparent one. *)
Definition sample_rgba : IconAlpha.image :=
  {| IconAlpha.mode := "RGBA"; IconAlpha.size := (2, 1);
     IconAlpha.pixels := [[10; 20; 30; 255]; [40; 50; 60; 0]]%Z |}.

(** A 2 by 1 grey image with alpha: opaque grey 200, then transparent. *)
Definition sample_la : IconAlpha.image :=
  {| IconAlpha.mode := "LA"; IconAlpha.size := (2, 1);
     IconAlpha.pixels := [[200; 255]; [77; 0]]%Z |}.

(** A 2 by 1 image without alpha channel. *)
Definition sample_grey : IconAlpha.image :=
  {| IconAlpha.mode := "L"; IconAlpha.size := (2, 1);
     IconAlpha.pixels := [[7]; [200]]%Z |}.

(** *** Vocabulary of the further properties *)

Definition is_updated (ev : Codemod.event) : bool :=
  match ev with Codemod.Updated _ => true | _ => false end.

Definition count_events (f : Codemod.event -> bool) (evs : list Codemod.event) : nat :=
  length (List.filter f evs).

(** The path an effect is about, for a write and for an "Updated" line. *)
Definition event_path (ev : Codemod.event) : option string :=
  match ev with
  | Codemod.Wrote p _ => Some p
  | Codemod.Updated p => Some p
  | _ => None
  end.

(** An effect of the processing loop: not one of the lines of [main]. *)
Definition loop_event (ev : Codemod.event) : bool :=
  match ev with
  | Codemod.Wrote _ _ | Codemod.Line _ | Codemod.Updated _ => true
  | _ => false
  end.

(** What [process_file] does with a path, read off the entry of the disk
    at that path alone: the flag, the text written if any, the effects. *)
Definition outcome (o : option Codemod.file) (filepath : string)
  : bool * option string * list Codemod.event :=
  let failed e := (false, None, [Codemod.Line (Codemod.error_line filepath e)]) in
  match o with
  | None => failed (Codemod.FileNotFoundError filepath)
  | Some f =>
      match Codemod.reading f with
      | Raise e => failed e
      | Ok text =>
          if String.eqb (Codemod.apply_all text) text then (false, None, [])
          else
            match Codemod.write_error f with
            | Some e => failed e
            | None =>
                let content := Codemod.add_import (Codemod.apply_all text) in
                (true, Some content, [Codemod.Wrote filepath content])
            end
      end
  end.

Definition commit (filepath : string) (written : option string)
    (fs : gmap string Codemod.file) : gmap string Codemod.file :=
  match written with
  | Some content => <[filepath := Codemod.plain_file content]> fs
  | None => fs
  end.

Definition starts_with_one (r : Re.regex) : bool :=
  match r with Re.One _ :: _ => true | _ => false end.

Definition two_files : gmap string Codemod.file :=
  <["/a.swift" := Codemod.plain_file ".padding(24)"]>
    (<["/b.swift" := Codemod.plain_file ".opacity(0.50)"]> ∅).

Definition import_line : string :=
  String.append "import SwiftUI" (String "010" "import DesignSystem").

(** What a run of the loop over the files [l] may add to the effects:
    as many "Updated" lines as writes, at most one per file, only effects
    of the loop, and only about paths of [l]. *)
Definition run_ok (l : list string) (added : list Codemod.event) : Prop :=
  count_events is_updated added = count_events is_write added
  /\ count_events is_updated added <= length l
  /\ forallb loop_event added = true
  /\ Forall (fun ev => forall q, event_path ev = Some q -> In q l) added.

(** *** Vocabulary of the analysis of a second pass *)

(** The literals on which a second pass differs from the first. *)
Definition UNSETTLED : list string :=
  [ ".white.opacity(0.28)"; ".white.opacity(0.29)";
    ".white.opacity(0.48)"; ".white.opacity(0.49)";
    ".white.opacity(0.68)"; ".white.opacity(0.69)" ].

(** [q] matches nowhere in [s]. *)
Definition absent (q : Re.regex) (s : string) : Prop := Re.search q s = None.

(** The pattern that matches exactly the text [x]. *)
Fixpoint lits (x : string) : Re.regex :=
  match x with
  | EmptyString => []
  | String c x' => Re.One (Re.Lit c) :: lits x'
  end.

(** [compat q x]: some text that [q] can match and [x] agree as far as the
    shorter of the two goes. *)
Fixpoint compat (q : Re.regex) (x : string) : bool :=
  match q with
  | [] => true
  | Re.One k :: q' =>
      match x with
      | EmptyString => true
      | String c x' => if Re.in_class k c then compat q' x' else false
      end
  | Re.Star k :: q' =>
      (fix star (x : string) : bool :=
         match x with
         | EmptyString => true
         | String c x' =>
             if (if Re.in_class k c then star x' else false) then true
             else compat q' x
         end) x
  end.

(** The suffixes of a pattern, the pattern itself first. *)
Fixpoint tails (q : Re.regex) : list Re.regex :=
  match q with
  | [] => [[]]
  | i :: q' => q :: tails q'
  end.

(** What can be left of a pattern once it has taken one character or
    more. *)
Definition tails_after (q : Re.regex) : list Re.regex :=
  match q with
  | [] => []
  | Re.One _ :: q' => tails q'
  | Re.Star _ :: _ => tails q
  end.

(** The non-empty suffixes of a text, the text itself first. *)
Fixpoint suffixes (x : string) : list string :=
  match x with
  | EmptyString => []
  | String _ x' => x :: suffixes x'
  end.

Definition is_nil (q : Re.regex) : bool :=
  match q with [] => true | _ => false end.

Definition no_compat (ts : list Re.regex) (r : string) : bool :=
  forallb (fun t => if is_nil t then true else negb (compat t r)) ts.

Definition starts_nowhere_in (q : Re.regex) (r : string) : bool :=
  forallb (fun y => negb (compat q y)) (suffixes r).

(** No match of [q] in any text can share a character with an occurrence
    of [r]. *)
Definition overlap_free (q : Re.regex) (r : string) : bool :=
  no_compat (tails q) r && starts_nowhere_in q r.

Definition disjoint (k k' : Re.cclass) : bool :=
  forallb (fun n => negb (Re.in_class k (ascii_of_nat n)
                          && Re.in_class k' (ascii_of_nat n)))
    (seq 0 256).

(** Patterns that match without backtracking: every star is followed by a
    one-character item that shares no character with it. *)
Fixpoint wfb (q : Re.regex) : bool :=
  match q with
  | [] => true
  | Re.One _ :: q' => wfb q'
  | Re.Star k :: q' =>
      match q' with
      | Re.One k' :: _ => disjoint k k' && wfb q'
      | _ => false
      end
  end.

(** The ways to cut a pattern after a literal head: the head and the
    rest. *)
Fixpoint lit_splits (q : Re.regex) : list (string * Re.regex) :=
  (EmptyString, q)
  :: match q with
     | Re.One (Re.Lit c) :: q' =>
         map (fun xt : string * Re.regex => (String c (fst xt), snd xt))
           (lit_splits q')
     | _ => []
     end.

Fixpoint as_literal (q : Re.regex) : option string :=
  match q with
  | [] => Some EmptyString
  | Re.One (Re.Lit c) :: q' =>
      match as_literal q' with
      | Some x => Some (String c x)
      | None => None
      end
  | _ => None
  end.


(** [q] can meet an occurrence of [r] in one way only: [q] is a literal
    [x] followed by [t], and [r] stands right after [x].  The rule, whose
    pattern is the literal [pl], then had [x] followed by [pl] in its
    input, which a pattern of [Q] excludes. *)
Definition special_split (Q : list Re.regex) (pl r : string)
    (xt : string * Re.regex) : bool :=
  forallb (fun x' => negb (compat (lits x') r)) (suffixes (fst xt))
  && no_compat (tails_after (snd xt)) r
  && existsb (fun q' => Re.fullmatch q' (String.append (fst xt) pl)) Q.

Definition keep_special (Q : list Re.regex) (q p : Re.regex) (r : string) : bool :=
  match as_literal p with
  | None => false
  | Some pl =>
      starts_nowhere_in q r && existsb (special_split Q pl r) (lit_splits q)
  end.

Definition keep (Q : list Re.regex) (q p : Re.regex) (r : string) : bool :=
  if overlap_free q r then true else keep_special Q q p r.

(** One rule of the pipeline on a set of backtrack-free patterns known to
    match nowhere: the patterns that cannot reappear stay, and the rule's
    own pattern joins them when its replacement cannot bring it back. *)
Definition step (Q : list Re.regex) (rule : Codemod.rule) : list Re.regex :=
  let p := Re.compile (fst rule) in
  let r := snd rule in
  if starts_with_one p then
    let Q' := List.filter (fun q => keep Q q p r) Q in
    if wfb p && overlap_free p r then p :: Q' else Q'
  else [].

#[global] Instance cclass_eq_dec : EqDecision Re.cclass.
Proof. solve_decision. Defined.

#[global] Instance item_eq_dec : EqDecision Re.item.
Proof. solve_decision. Defined.

(** [q] ends with a pattern of [F]. *)
Definition covered (F : list Re.regex) (q : Re.regex) : bool :=
  existsb (fun t => existsb (fun q' => bool_decide (q' = t)) F) (tails q).

Definition settled_set : list Re.regex :=
  fold_left step Codemod.ALL_RULES (map lits UNSETTLED).

Definition all_covered : bool :=
  forallb (fun rule : Codemod.rule => covered settled_set (Re.compile (fst rule)))
    Codemod.ALL_RULES.

(** Every pattern of [Q] matches without backtracking and matches nowhere
    in [s]. *)
Definition settled (Q : list Re.regex) (s : string) : Prop :=
  forall q, In q Q -> wfb q = true /\ absent q s.

(** * Properties *)

(** ** Strings *)

Lemma startswith_append (p s : string) : Str.startswith p (String.append p s) = true.
Proof.
  induction p as [|a p IH]; simpl; [reflexivity|].
  rewrite Ascii.eqb_refl. exact IH.
Qed.

Lemma contains_false_tail (n : string) (c : ascii) (s : string) :
  Str.contains n (String c s) = false -> Str.contains n s = false.
Proof. simpl. intros H. apply orb_false_elim in H. tauto. Qed.

Lemma replace_first_absent (old new s : string) :
  Str.contains old s = false -> Str.replace_first old new s = s.
Proof.
  induction s as [|c s IH]; simpl; intros H; apply orb_false_elim in H;
    destruct H as [H1 H2]; rewrite H1; [reflexivity|].
  f_equal. apply IH. exact H2.
Qed.

(** ** Substitution where nothing matches *)

Lemma search_none_here (r : Re.regex) (s : string) :
  Re.search r s = None -> Re.match_here r s = None.
Proof.
  destruct s; simpl; destruct (Re.match_here r _); congruence.
Qed.

Lemma search_none_tail (r : Re.regex) (c : ascii) (s : string) :
  Re.search r (String c s) = None -> Re.search r s = None.
Proof.
  simpl. destruct (Re.match_here r (String c s)); [congruence|].
  destruct (Re.search r s) as [[i n]|]; congruence.
Qed.

Lemma sub_from_no_match (r : Re.regex) (repl s : string) :
  Re.search r s = None -> Re.sub_from 0 r repl s = s.
Proof.
  induction s as [|c s IH]; intros H.
  - simpl. rewrite (search_none_here _ _ H). reflexivity.
  - pose proof (search_none_here _ _ H) as Hm.
    change (Re.sub_from 0 r repl (String c s))
      with (match Re.match_here r (String c s) with
            | Some (S n) => String.append repl (Re.sub_from n r repl s)
            | Some O => String.append repl (String c (Re.sub_from 0 r repl s))
            | None => String c (Re.sub_from 0 r repl s)
            end).
    rewrite Hm. f_equal. apply IH. eapply search_none_tail. exact H.
Qed.

Lemma apply_table_no_match (table : list Codemod.rule) (s : string) :
  no_match_in table s -> Codemod.apply_table table s = s.
Proof.
  unfold Codemod.apply_table, no_match_in.
  induction table as [|r table IH]; intros H; simpl; [reflexivity|].
  inversion H as [|? ? Hr Ht]; subst.
  unfold Re.sub. rewrite (sub_from_no_match _ _ _ Hr). apply IH. exact Ht.
Qed.

Lemma apply_all_no_match (s : string) :
  no_match_in Codemod.ALL_RULES s -> Codemod.apply_all s = s.
Proof.
  unfold no_match_in, Codemod.ALL_RULES, Codemod.ALL_TABLES. cbn [concat].
  rewrite !Forall_app. intros (H1 & H2 & H3 & H4 & H5 & H6 & _).
  unfold Codemod.apply_all.
  rewrite (apply_table_no_match _ _ H1), (apply_table_no_match _ _ H2),
    (apply_table_no_match _ _ H3), (apply_table_no_match _ _ H4),
    (apply_table_no_match _ _ H5), (apply_table_no_match _ _ H6).
  reflexivity.
Qed.

(** ** The per-file processor, case by case *)

Section ProcessFile.

Import Codemod.

Variable fs : gmap string file.
Variable filepath : string.

Lemma neq_eqb (a b : string) : a <> b -> negb (String.eqb a b) = true.
Proof. intros H. apply String.eqb_neq in H. rewrite H. reflexivity. Qed.

Lemma process_file_read_error (e : exn) :
  read_text fs filepath = Raise e ->
  process_file fs filepath = (false, fs, [Line (error_line filepath e)]).
Proof.
  intros H. unfold process_file, process_file_body. rewrite H. reflexivity.
Qed.

Lemma process_file_unchanged (text : string) :
  read_text fs filepath = Ok text ->
  apply_all text = text ->
  process_file fs filepath = (false, fs, []).
Proof.
  intros H Heq. unfold process_file, process_file_body. rewrite H. cbn [bind].
  rewrite Heq, String.eqb_refl. reflexivity.
Qed.

Lemma process_file_write_error (text : string) (e : exn) :
  read_text fs filepath = Ok text ->
  apply_all text <> text ->
  write_text fs filepath (add_import (apply_all text)) = Raise e ->
  process_file fs filepath = (false, fs, [Line (error_line filepath e)]).
Proof.
  intros H Hne Hw. unfold process_file, process_file_body. rewrite H. cbn [bind].
  rewrite (neq_eqb _ _ Hne), Hw. reflexivity.
Qed.

Lemma process_file_changed (text : string) (fs' : gmap string file) :
  read_text fs filepath = Ok text ->
  apply_all text <> text ->
  write_text fs filepath (add_import (apply_all text)) = Ok fs' ->
  process_file fs filepath
  = (true, fs', [Wrote filepath (add_import (apply_all text))]).
Proof.
  intros H Hne Hw. unfold process_file, process_file_body. rewrite H. cbn [bind].
  rewrite (neq_eqb _ _ Hne), Hw. reflexivity.
Qed.

Lemma write_text_permitted (f : file) (content : string) :
  fs !! filepath = Some f ->
  write_error f = None ->
  write_text fs filepath content = Ok (<[filepath := plain_file content]> fs).
Proof. intros Hf Hw. unfold write_text. rewrite Hf, Hw. reflexivity. Qed.

Lemma read_text_lookup (f : file) (text : string) :
  fs !! filepath = Some f -> reading f = Ok text -> read_text fs filepath = Ok text.
Proof. intros Hf Hr. unfold read_text. rewrite Hf. exact Hr. Qed.

End ProcessFile.

(** C4.  A file that can be read is written back exactly when the rule
    tables change its text.  An effect of [process_file] is a write only
    if the text changed.  If the text changed and the file may be written,
    [process_file] returns [True], the disk holds the new text at that
    path and nowhere else differs, and the one effect is that write.  If
    the text did not change, [process_file] returns [False], has no
    effect, and the disk is the same.  That is the case of every text that
    no rule of any table matches. *)
Theorem write_iff_changed (fs : gmap string Codemod.file) (filepath text : string) :
  Codemod.read_text fs filepath = Ok text ->
  let '(modified, fs', evs) := Codemod.process_file fs filepath in
  (existsb is_write evs = true -> Codemod.apply_all text <> text)
  /\ (Codemod.apply_all text <> text ->
      (forall f, fs !! filepath = Some f -> Codemod.write_error f = None) ->
      modified = true
      /\ evs = [Codemod.Wrote filepath (Codemod.add_import (Codemod.apply_all text))]
      /\ fs' = <[filepath :=
                  Codemod.plain_file (Codemod.add_import (Codemod.apply_all text))]> fs)
  /\ (Codemod.apply_all text = text ->
      modified = false /\ evs = [] /\ fs' = fs)
  /\ (no_match_in Codemod.ALL_RULES text ->
      Codemod.apply_all text = text /\ modified = false /\ evs = [] /\ fs' = fs).
Proof.
  intros Hread.
  destruct (String.eqb_spec (Codemod.apply_all text) text) as [Heq|Hne].
  - rewrite (process_file_unchanged _ _ _ Hread Heq).
    repeat split; try congruence; try discriminate.
  - pose proof Hread as Hread'. unfold Codemod.read_text in Hread'.
    destruct (fs !! filepath) as [f|] eqn:Hf; [|discriminate].
    destruct (Codemod.write_text fs filepath
                (Codemod.add_import (Codemod.apply_all text))) as [fs1|e] eqn:Hw.
    + rewrite (process_file_changed _ _ _ _ Hread Hne Hw).
      split; [intros _; exact Hne|]. split; [|split].
      * intros _ Hperm. specialize (Hperm f eq_refl).
        rewrite (write_text_permitted _ _ _ _ Hf Hperm) in Hw.
        inversion Hw. auto.
      * intros Heq. contradiction.
      * intros Hno. apply apply_all_no_match in Hno. contradiction.
    + rewrite (process_file_write_error _ _ _ _ Hread Hne Hw).
      split; [cbn [existsb is_write orb]; discriminate|]. split; [|split].
      * intros _ Hperm. specialize (Hperm f eq_refl).
        rewrite (write_text_permitted _ _ _ _ Hf Hperm) in Hw. discriminate.
      * intros Heq. contradiction.
      * intros Hno. apply apply_all_no_match in Hno. contradiction.
Qed.

Lemma write_iff_changed_witness :
  Codemod.read_text (one_file "/V.swift" ".opacity(0.13)") "/V.swift"
  = Ok ".opacity(0.13)"
  /\ Codemod.process_file (one_file "/V.swift" ".opacity(0.13)") "/V.swift"
     = (true,
        <["/V.swift" := Codemod.plain_file ".opacity(0.15)"]>
          (one_file "/V.swift" ".opacity(0.13)"),
        [Codemod.Wrote "/V.swift" ".opacity(0.15)"]).
Proof.
  assert (Hread : Codemod.read_text (one_file "/V.swift" ".opacity(0.13)") "/V.swift"
                  = Ok ".opacity(0.13)") by reflexivity.
  split; [exact Hread|].
  pose proof (write_iff_changed _ _ _ Hread) as H.
  destruct (Codemod.process_file _ _) as [[modified fs'] evs].
  destruct H as (_ & H & _).
  destruct H as (-> & -> & ->).
  - vm_compute. discriminate.
  - intros f Hf. vm_compute in Hf. inversion Hf. reflexivity.
  - reflexivity.
Defined.

(** ** Errors inside the per-file processor *)

Lemma contains_prefix (n s : string) : Str.contains n (String.append n s) = true.
Proof.
  destruct n as [|a n]; [destruct s; reflexivity|].
  change (Str.contains (String a n) (String.append (String a n) s))
    with (Str.startswith (String a n) (String.append (String a n) s)
          || Str.contains (String a n) (String.append n s)).
  rewrite startswith_append. reflexivity.
Qed.

Lemma contains_after (n a s : string) :
  Str.contains n s = true -> Str.contains n (String.append a s) = true.
Proof.
  intros H. induction a as [|c a IH]; [exact H|].
  simpl. rewrite IH. apply orb_true_r.
Qed.

Lemma contains_self (s : string) : Str.contains s s = true.
Proof.
  destruct s as [|c s]; [reflexivity|].
  cbn [Str.contains]. pose proof (startswith_append (String c s) "") as H.
  replace (String.append (String c s) "") with (String c s) in H.
  - rewrite H. reflexivity.
  - clear H. generalize (String c s). intros t.
    induction t as [|a t IH]; [reflexivity|].
    change (String a t = String a (String.append t "")).
    rewrite <- IH. reflexivity.
Qed.

Lemma error_line_mentions (filepath : string) (e : exn) :
  Str.contains filepath (Codemod.error_line filepath e) = true
  /\ Str.contains (exn_text e) (Codemod.error_line filepath e) = true.
Proof.
  unfold Codemod.error_line. split.
  - apply contains_after, contains_prefix.
  - apply contains_after, contains_after, contains_after, contains_self.
Qed.

Lemma body_raise_cases (fs : gmap string Codemod.file) (filepath : string) (e : exn) :
  Codemod.process_file_body fs filepath = Raise e ->
  Codemod.read_text fs filepath = Raise e
  \/ exists text,
       Codemod.read_text fs filepath = Ok text
       /\ Codemod.apply_all text <> text
       /\ Codemod.write_text fs filepath
            (Codemod.add_import (Codemod.apply_all text)) = Raise e.
Proof.
  unfold Codemod.process_file_body.
  destruct (Codemod.read_text fs filepath) as [text|e0]; cbn [bind].
  - destruct (String.eqb_spec (Codemod.apply_all text) text) as [Heq|Hne];
      cbn [negb]; [discriminate|].
    destruct (Codemod.write_text fs filepath _) as [fs'|e1] eqn:Hw;
      cbn [bind]; [discriminate|].
    intros H. inversion H; subst. right. exists text. auto.
  - intros H. inversion H; subst. left. reflexivity.
Qed.

Lemma process_files_app (fs : gmap string Codemod.file) (l1 l2 : list string) :
  Codemod.process_files fs (l1 ++ l2)
  = fold_left Codemod.process_step l2 (Codemod.process_files fs l1).
Proof. unfold Codemod.process_files. apply fold_left_app. Qed.

(** C5.  When the read or the write of a file raises, inside the run of
    [main] over the files [before ++ filepath :: after]: the exception
    came from reading the file or from writing its changed text;
    [process_file] returns [False], leaves the disk as the files before it
    left it, and prints one line, which contains the path and the text of
    the exception; and the loop goes on with the files after it, from that
    disk and with the count of modified files unchanged. *)
Theorem per_file_error_recovery
    (fs fs1 : gmap string Codemod.file) (before after : list string)
    (filepath : string) (count1 : nat) (evs1 : list Codemod.event) (e : exn) :
  Codemod.process_files fs before = (fs1, count1, evs1) ->
  Codemod.process_file_body fs1 filepath = Raise e ->
  (Codemod.read_text fs1 filepath = Raise e
   \/ exists text,
        Codemod.read_text fs1 filepath = Ok text
        /\ Codemod.apply_all text <> text
        /\ Codemod.write_text fs1 filepath
             (Codemod.add_import (Codemod.apply_all text)) = Raise e)
  /\ Codemod.process_file fs1 filepath
     = (false, fs1, [Codemod.Line (Codemod.error_line filepath e)])
  /\ Str.contains filepath (Codemod.error_line filepath e) = true
  /\ Str.contains (exn_text e) (Codemod.error_line filepath e) = true
  /\ Codemod.process_files fs (before ++ filepath :: after)
     = fold_left Codemod.process_step after
         (fs1, count1, evs1 ++ [Codemod.Line (Codemod.error_line filepath e)]).
Proof.
  intros Hbefore Hraise.
  assert (Hpf : Codemod.process_file fs1 filepath
                = (false, fs1, [Codemod.Line (Codemod.error_line filepath e)])).
  { unfold Codemod.process_file. rewrite Hraise. reflexivity. }
  split; [apply body_raise_cases; exact Hraise|].
  split; [exact Hpf|].
  destruct (error_line_mentions filepath e) as [H1 H2].
  split; [exact H1|]. split; [exact H2|].
  rewrite process_files_app, Hbefore.
  cbn [fold_left]. unfold Codemod.process_step at 2. rewrite Hpf. reflexivity.
Qed.

Lemma per_file_error_recovery_witness :
  Codemod.process_files three_files ["/a.swift"; "/b.swift"; "/c.swift"]
  = fold_left Codemod.process_step ["/c.swift"]
      (<["/a.swift" := Codemod.plain_file ".padding(DesignSystem.Spacing.cardPadding)"]>
         three_files,
       1,
       [Codemod.Wrote "/a.swift" ".padding(DesignSystem.Spacing.cardPadding)";
        Codemod.Updated "/a.swift";
        Codemod.Line
          "Error processing /b.swift: [Errno 2] No such file or directory: '/b.swift'"]).
Proof.
  pose proof
    (per_file_error_recovery three_files
       (<["/a.swift" := Codemod.plain_file ".padding(DesignSystem.Spacing.cardPadding)"]>
          three_files)
       ["/a.swift"] ["/c.swift"] "/b.swift" 1
       [Codemod.Wrote "/a.swift" ".padding(DesignSystem.Spacing.cardPadding)";
        Codemod.Updated "/a.swift"]
       (Codemod.FileNotFoundError "/b.swift")) as H.
  destruct H as (_ & _ & _ & _ & H).
  - vm_compute. reflexivity.
  - vm_compute. reflexivity.
  - exact H.
Defined.

(** ** The import step *)

Lemma add_import_without_base (content : string) :
  Str.contains "import SwiftUI" content = false ->
  Codemod.add_import content = content.
Proof. intros H. unfold Codemod.add_import. rewrite H. reflexivity. Qed.

Lemma add_import_with_reference (content : string) :
  Str.contains "DesignSystem" content = true ->
  Codemod.add_import content = content.
Proof.
  intros H. unfold Codemod.add_import. rewrite H.
  rewrite andb_false_r. reflexivity.
Qed.

Lemma startswith_split (p s : string) :
  Str.startswith p s = true ->
  s = String.append p (Str.drop (String.length p) s).
Proof.
  revert s. induction p as [|a p IH]; intros s H; [reflexivity|].
  destruct s as [|b s]; [discriminate|].
  cbn [Str.startswith] in H. apply andb_true_iff in H. destruct H as [Hab Hp].
  apply Ascii.eqb_eq in Hab. subst b.
  change (String a s = String a (String.append p (Str.drop (String.length p) s))).
  f_equal. apply IH. exact Hp.
Qed.

(** [replace_first] rewrites the leftmost occurrence and nothing else. *)
Lemma replace_first_split (old new s : string) :
  Str.contains old s = true ->
  exists pre post,
    s = String.append pre (String.append old post)
    /\ Str.replace_first old new s = String.append pre (String.append new post).
Proof.
  induction s as [|c s IH]; intros H.
  - cbn [Str.contains] in H. rewrite orb_false_r in H.
    exists EmptyString, (Str.drop (String.length old) EmptyString).
    cbn [Str.replace_first]. rewrite H. split; [|reflexivity].
    apply (startswith_split old EmptyString H).
  - cbn [Str.replace_first]. destruct (Str.startswith old (String c s)) eqn:Hs.
    + exists EmptyString, (Str.drop (String.length old) (String c s)).
      split; [|reflexivity]. apply (startswith_split old (String c s) Hs).
    + cbn [Str.contains] in H. rewrite Hs in H. cbn [orb] in H.
      destruct (IH H) as (pre & post & Heq & Hrep).
      exists (String c pre), post. split.
      * rewrite Heq at 1. reflexivity.
      * rewrite Hrep. reflexivity.
Qed.

(** Where the import step applies, it puts one line, [import DesignSystem],
    right after the leftmost [import SwiftUI] and changes nothing else. *)
Lemma add_import_inserts_after_base (content : string) :
  Str.contains "import SwiftUI" content = true ->
  Str.contains "DesignSystem" content = false ->
  exists pre post,
    content = String.append pre (String.append "import SwiftUI" post)
    /\ Codemod.add_import content
       = String.append pre
           (String.append
              (String.append "import SwiftUI" (String "010" "import DesignSystem"))
              post).
Proof.
  intros Hbase Href. unfold Codemod.add_import. rewrite Hbase, Href.
  cbn [negb andb]. apply replace_first_split. exact Hbase.
Qed.

(** C10.  A file that is changed by the rule tables and whose changed text
    does not contain [import SwiftUI] is written back exactly as the
    tables produced it: no import line is inserted, whether or not the
    changed text refers to the design-system module. *)
Theorem no_base_import_no_insertion
    (fs : gmap string Codemod.file) (filepath : string)
    (f : Codemod.file) (text : string) :
  fs !! filepath = Some f ->
  Codemod.reading f = Ok text ->
  Codemod.write_error f = None ->
  Codemod.apply_all text <> text ->
  Str.contains "import SwiftUI" (Codemod.apply_all text) = false ->
  Codemod.add_import (Codemod.apply_all text) = Codemod.apply_all text
  /\ Codemod.process_file fs filepath
     = (true,
        <[filepath := Codemod.plain_file (Codemod.apply_all text)]> fs,
        [Codemod.Wrote filepath (Codemod.apply_all text)]).
Proof.
  intros Hf Hr Hw Hne Hbase.
  pose proof (add_import_without_base _ Hbase) as Hadd.
  split; [exact Hadd|].
  rewrite (process_file_changed fs filepath text
             (<[filepath := Codemod.plain_file (Codemod.apply_all text)]> fs)).
  - rewrite Hadd. reflexivity.
  - eapply read_text_lookup; eauto.
  - exact Hne.
  - rewrite Hadd. eapply write_text_permitted; eauto.
Qed.

Lemma no_base_import_no_insertion_witness :
  Str.contains "DesignSystem" (Codemod.apply_all ".padding(24)") = true
  /\ Codemod.process_file (one_file "/V.swift" ".padding(24)") "/V.swift"
     = (true,
        <["/V.swift" := Codemod.plain_file ".padding(DesignSystem.Spacing.cardPadding)"]>
          (one_file "/V.swift" ".padding(24)"),
        [Codemod.Wrote "/V.swift" ".padding(DesignSystem.Spacing.cardPadding)"]).
Proof.
  split; [vm_compute; reflexivity|].
  refine (proj2 (no_base_import_no_insertion
                   (one_file "/V.swift" ".padding(24)") "/V.swift"
                   (Codemod.plain_file ".padding(24)") ".padding(24)" _ _ _ _ _)).
  - vm_compute. reflexivity.
  - reflexivity.
  - reflexivity.
  - vm_compute. discriminate.
  - vm_compute. reflexivity.
Defined.

(** C2, the code at a file that comes to refer to the design-system module
    and has no import of it: the text [import SwiftUI] followed by a line
    with [.padding(24)].  The file is rewritten with the reference and
    without [import DesignSystem]. *)
Theorem import_missing_for_referencing_file :
  let text := "import SwiftUI" +:+ newline +:+ ".padding(24)" in
  let text' :=
    "import SwiftUI" +:+ newline +:+ ".padding(DesignSystem.Spacing.cardPadding)" in
  Codemod.apply_all text = text'
  /\ Str.contains "DesignSystem" text' = true
  /\ Str.contains "import DesignSystem" text' = false
  /\ Codemod.process_file (one_file "/V.swift" text) "/V.swift"
     = (true, <["/V.swift" := Codemod.plain_file text']> (one_file "/V.swift" text),
        [Codemod.Wrote "/V.swift" text']).
Proof.
  intros text text'.
  assert (Hall : Codemod.apply_all text = text') by (vm_compute; reflexivity).
  split; [exact Hall|].
  split; [vm_compute; reflexivity|].
  split; [vm_compute; reflexivity|].
  assert (Hadd : Codemod.add_import text' = text') by (vm_compute; reflexivity).
  rewrite (process_file_changed (one_file "/V.swift" text) "/V.swift" text
             (<["/V.swift" := Codemod.plain_file text']> (one_file "/V.swift" text))).
  - rewrite Hall, Hadd. reflexivity.
  - vm_compute. reflexivity.
  - rewrite Hall. vm_compute. discriminate.
  - rewrite Hall, Hadd.
    apply (write_text_permitted _ _ (Codemod.plain_file text));
      [vm_compute; reflexivity|reflexivity].
Qed.

(** The other side of the same test: a file changed by the opacity table
    alone, which has no reference to the module, is given the import. *)
Lemma import_added_without_reference :
  let text := "import SwiftUI" +:+ newline +:+ ".opacity(0.13)" in
  Codemod.add_import (Codemod.apply_all text)
  = "import SwiftUI" +:+ newline +:+ "import DesignSystem" +:+ newline
    +:+ ".opacity(0.15)".
Proof. vm_compute. reflexivity. Qed.

(** ** Decision of "no rule matches" *)

Lemma no_matchb_spec (table : list Codemod.rule) (s : string) :
  no_matchb table s = true <-> no_match_in table s.
Proof.
  unfold no_matchb, no_match_in. rewrite forallb_forall, List.Forall_forall.
  split; intros H r Hr; specialize (H r Hr);
    destruct (Re.search (Re.compile (fst r)) s); congruence.
Qed.

(** C6.  The pipeline on the three literals of the specification:
    [.opacity(0.13)] becomes [.opacity(0.15)], [.opacity(0.50)] is matched
    by no rule and stays, [.opacity(0.99)] becomes [.opacity(1.0)]. *)
Theorem opacity_examples :
  Codemod.apply_all ".opacity(0.13)" = ".opacity(0.15)"
  /\ Codemod.apply_all ".opacity(0.50)" = ".opacity(0.50)"
  /\ no_match_in Codemod.ALL_RULES ".opacity(0.50)"
  /\ Codemod.apply_all ".opacity(0.99)" = ".opacity(1.0)".
Proof.
  split; [vm_compute; reflexivity|].
  split; [vm_compute; reflexivity|].
  split; [apply no_matchb_spec; vm_compute; reflexivity|].
  vm_compute; reflexivity.
Qed.

(** ** Running the pipeline twice *)

(** C1 as stated fails on [.white.opacity(0.68)].  On the first pass no
    colour rule matches and the opacity table rewrites the value to
    [0.70]; on the second pass the third colour rule matches the result. *)
Lemma pipeline_not_idempotent :
  Codemod.apply_all ".white.opacity(0.68)" = ".white.opacity(0.70)"
  /\ Codemod.apply_all (Codemod.apply_all ".white.opacity(0.68)")
     = "DesignSystem.Colors.textSecondary"
  /\ ~ idempotent_at ".white.opacity(0.68)".
Proof.
  split; [vm_compute; reflexivity|].
  split; [vm_compute; reflexivity|].
  unfold idempotent_at. vm_compute. discriminate.
Qed.

(** ** The opacity table as a quantization *)

Lemma table_rows : forallb row_ok (seq 0 100) = true.
Proof. vm_compute. reflexivity. Qed.

Lemma row_ok_below_100 (n : nat) : n < 100 -> row_ok n = true.
Proof.
  intros H. pose proof table_rows as T. rewrite forallb_forall in T.
  apply T. apply in_seq. lia.
Qed.

Lemma snap_nearest (n : nat) : nearest_step n (snap n).
Proof.
  unfold nearest_step, snap, dist. split.
  - rewrite Nat.mul_comm. apply Nat.Div0.mod_mul.
  - intros k Hk.
    pose proof (Nat.div_mod_eq (n + 2) 5) as H1.
    pose proof (Nat.mod_upper_bound (n + 2) 5 ltac:(lia)) as H2.
    pose proof (Nat.div_mod_eq k 5) as H3. rewrite Hk in H3.
    lia.
Qed.

(** C3 as stated fails at [.opacity(0.11)]: 11 is between 3 and 99 and is
    not a multiple of 5, and no rule of the table matches it. *)
Lemma opacity_011_has_no_rule :
  3 <= 11 <= 99 /\ 11 mod 5 <> 0
  /\ no_match_in Codemod.OPACITY_REPLACEMENTS (opacity_literal 11)
  /\ ~ has_rule_to_nearest 11.
Proof.
  split; [lia|]. split; [vm_compute; discriminate|].
  assert (H : forallb (fun r : Codemod.rule =>
                         negb (Re.fullmatch (Re.compile (fst r)) (opacity_literal 11)))
                Codemod.OPACITY_REPLACEMENTS = true) by (vm_compute; reflexivity).
  split; [apply no_matchb_spec; vm_compute; reflexivity|].
  intros (r & Hin & Hm & _). rewrite forallb_forall in H.
  specialize (H r Hin). rewrite Hm in H. discriminate.
Qed.

(** C3, amended.  For every two-digit value from .03 through .99 that is
    not a multiple of 0.05 and whose second digit is not 1, the table has
    a rule whose pattern matches the literal and whose replacement is the
    nearest multiple of 0.05, and the table rewrites the literal to it.  No
    rule matches the literal of .11, .21, ..., .91, of .01 and .02, or of
    a two-digit multiple of 0.05. *)
Theorem opacity_table_quantizes (n : nat) :
  n < 100 ->
  (3 <= n -> n mod 5 <> 0 -> n mod 10 <> 1 ->
   has_rule_to_nearest n
   /\ Codemod.apply_table Codemod.OPACITY_REPLACEMENTS (opacity_literal n)
      = opacity_text (snap n))
  /\ (n < 3 \/ n mod 5 = 0 \/ n mod 10 = 1 ->
      no_match_in Codemod.OPACITY_REPLACEMENTS (opacity_literal n)).
Proof.
  intros Hn. pose proof (row_ok_below_100 n Hn) as Hrow. unfold row_ok in Hrow.
  split.
  - intros H3 H5 H1.
    assert (Hr : has_rule n = true).
    { unfold has_rule. apply andb_true_iff. split; [apply andb_true_iff; split|].
      - apply Nat.leb_le. exact H3.
      - apply negb_true_iff, Nat.eqb_neq. exact H5.
      - apply negb_true_iff, Nat.eqb_neq. exact H1. }
    rewrite Hr in Hrow. apply andb_true_iff in Hrow. destruct Hrow as [Hex Happ].
    split.
    + apply existsb_exists in Hex. destruct Hex as (r & Hin & Hfit).
      unfold rule_fits in Hfit. apply andb_true_iff in Hfit.
      destruct Hfit as [Hm Hs]. exists r. split; [exact Hin|]. split; [exact Hm|].
      exists (snap n). split; [apply snap_nearest|]. apply String.eqb_eq. exact Hs.
    + apply String.eqb_eq. exact Happ.
  - intros Hcase.
    assert (Hr : has_rule n = false).
    { unfold has_rule. destruct Hcase as [H|[H|H]].
      - replace (3 <=? n)%nat with false; [reflexivity|].
        symmetry. apply Nat.leb_gt. exact H.
      - rewrite H. cbn [Nat.eqb negb]. rewrite andb_false_r. reflexivity.
      - rewrite H. cbn [Nat.eqb negb]. rewrite andb_false_r. reflexivity. }
    rewrite Hr in Hrow. apply no_matchb_spec. exact Hrow.
Qed.

Lemma opacity_table_quantizes_witness :
  Codemod.apply_table Codemod.OPACITY_REPLACEMENTS ".opacity(0.13)" = ".opacity(0.15)"
  /\ no_match_in Codemod.OPACITY_REPLACEMENTS ".opacity(0.50)".
Proof.
  split.
  - refine (proj2 (proj1 (opacity_table_quantizes 13 _) _ _ _)).
    + lia.
    + lia.
    + vm_compute. discriminate.
    + vm_compute. discriminate.
  - refine (proj2 (opacity_table_quantizes 50 _) _).
    + lia.
    + right. left. reflexivity.
Defined.

(** ** The file discoverer *)

Lemma dtree_induction (P : Codemod.dtree -> Prop) :
  (forall files subdirs,
      Forall (fun nd => P (snd nd)) subdirs -> P (Codemod.Dir files subdirs)) ->
  forall t, P t.
Proof.
  intros step. fix IH 1. intros [files subdirs]. apply step.
  induction subdirs as [|[d sub] rest IHrest]; constructor.
  - apply IH.
  - exact IHrest.
Qed.

Lemma collect_found (root : string) (files acc : list string) :
  Codemod.collect root files acc = acc ++ found_in root files.
Proof.
  unfold Codemod.collect, found_in. revert acc.
  induction files as [|file files IH]; intros acc; cbn [fold_left List.filter map].
  - rewrite app_nil_r. reflexivity.
  - rewrite IH. destruct (Str.endswith ".swift" file); cbn [map].
    + rewrite <- app_assoc. reflexivity.
    + reflexivity.
Qed.

Lemma find_swift_files_flat (base : string) (t : Codemod.dtree) :
  Codemod.find_swift_files base t = flat_map found_at (Codemod.walk base t).
Proof.
  unfold Codemod.find_swift_files.
  rewrite <- (app_nil_l (flat_map found_at (Codemod.walk base t))).
  generalize (@nil string). generalize (Codemod.walk base t).
  intros l. induction l as [|[[root dirs] files] l IH]; intros acc;
    cbn [fold_left flat_map].
  - rewrite app_nil_r. reflexivity.
  - rewrite IH. unfold found_at at 2. cbn [fst snd].
    destruct (Codemod.skipped root).
    + reflexivity.
    + rewrite collect_found, <- app_assoc. reflexivity.
Qed.

Lemma walk_located (t : Codemod.dtree) :
  forall top root dirs files name,
    In (root, dirs, files) (Codemod.walk top t) ->
    In name files ->
    exists chain, located top t chain root name.
Proof.
  induction t as [files0 subdirs IH] using dtree_induction.
  intros top root dirs files name Hin Hname.
  cbn [Codemod.walk] in Hin. destruct Hin as [Heq|Hin].
  - inversion Heq; subst. exists [root]. constructor. exact Hname.
  - apply in_flat_map in Hin. destruct Hin as ([d sub] & Hsub & Hin).
    rewrite List.Forall_forall in IH. specialize (IH _ Hsub). cbn [fst snd] in *.
    destruct (IH _ _ _ _ _ Hin Hname) as (chain & Hloc).
    exists (top :: chain). econstructor; eassumption.
Qed.

Lemma located_walk (top : string) (t : Codemod.dtree) (chain : list string)
    (root name : string) :
  located top t chain root name ->
  exists dirs files, In (root, dirs, files) (Codemod.walk top t) /\ In name files.
Proof.
  induction 1 as [top files subdirs name Hname
                 |top files subdirs d sub chain root name Hsub Hloc IH].
  - exists (map fst subdirs), files. split; [left; reflexivity|exact Hname].
  - destruct IH as (dirs & files' & Hin & Hname).
    exists dirs, files'. split; [|exact Hname].
    cbn [Codemod.walk]. right. apply in_flat_map. exists (d, sub).
    split; [exact Hsub|exact Hin].
Qed.

Lemma startswith_append_r (x s b : string) :
  Str.startswith x s = true -> Str.startswith x (String.append s b) = true.
Proof.
  revert s. induction x as [|c x IH]; intros s H; [reflexivity|].
  destruct s as [|c' s]; [discriminate|].
  cbn [Str.startswith] in H. apply andb_true_iff in H. destruct H as [Hc Hs].
  change (String.append (String c' s) b) with (String c' (String.append s b)).
  cbn [Str.startswith]. rewrite Hc, (IH _ Hs). reflexivity.
Qed.

Lemma contains_before (x a b : string) :
  Str.contains x a = true -> Str.contains x (String.append a b) = true.
Proof.
  induction a as [|c a IH]; intros H.
  - cbn [Str.contains] in H. rewrite orb_false_r in H.
    destruct x; [|discriminate]. destruct b; reflexivity.
  - cbn [Str.contains] in H. apply orb_true_iff in H.
    change (String.append (String c a) b) with (String c (String.append a b)).
    cbn [Str.contains]. apply orb_true_iff. destruct H as [H|H].
    + left. apply (startswith_append_r x (String c a) b H).
    + right. apply IH. exact H.
Qed.

Lemma contains_join (x top d : string) :
  Str.startswith "/" d = false ->
  Str.contains x top = true ->
  Str.contains x (Path.join top d) = true.
Proof.
  intros Hd H. unfold Path.join. rewrite Hd.
  destruct (String.eqb top "" || Str.endswith "/" top); apply contains_before, H.
Qed.

Lemma skipped_join (top d : string) :
  Str.startswith "/" d = false ->
  Codemod.skipped top = true ->
  Codemod.skipped (Path.join top d) = true.
Proof.
  intros Hd. unfold Codemod.skipped. rewrite !orb_true_iff.
  intros [H|[H|H]]; [left|right; left|right; right]; apply contains_join; assumption.
Qed.

Lemma located_head (top : string) (t : Codemod.dtree) (chain : list string)
    (root name : string) :
  located top t chain root name -> exists rest, chain = top :: rest.
Proof. destruct 1; eauto. Qed.

Lemma located_ancestors (top : string) (t : Codemod.dtree) (chain : list string)
    (root name : string) :
  located top t chain root name ->
  plain_names t = true ->
  forall a, In a chain -> Codemod.skipped a = true -> Codemod.skipped root = true.
Proof.
  induction 1 as [top files subdirs name Hname
                 |top files subdirs d sub chain root name Hsub Hloc IH];
    intros Hplain a Ha Hskip.
  - destruct Ha as [<-|[]]. exact Hskip.
  - cbn [plain_names] in Hplain. rewrite forallb_forall in Hplain.
    specialize (Hplain _ Hsub). cbn [fst snd] in Hplain.
    apply andb_true_iff in Hplain. destruct Hplain as [Hd Hsubplain].
    apply negb_true_iff in Hd.
    destruct Ha as [<-|Ha].
    + destruct (located_head _ _ _ _ _ Hloc) as (rest & ->).
      apply (IH Hsubplain (Path.join top d)); [left; reflexivity|].
      apply skipped_join; assumption.
    + apply (IH Hsubplain a Ha Hskip).
Qed.

Lemma in_found_at (entry : string * list string * list string) (p : string) :
  In p (found_at entry) <->
  Codemod.skipped (fst (fst entry)) = false
  /\ exists name, In name (snd entry)
                  /\ Str.endswith ".swift" name = true
                  /\ p = Path.join (fst (fst entry)) name.
Proof.
  unfold found_at, found_in. destruct (Codemod.skipped (fst (fst entry))).
  - split; [intros []|intros [H _]; discriminate].
  - rewrite in_map_iff. split.
    + intros (name & <- & Hin). apply filter_In in Hin. destruct Hin as [Hin He].
      split; [reflexivity|]. exists name. auto.
    + intros (_ & name & Hin & He & ->). exists name. split; [reflexivity|].
      apply filter_In. auto.
Qed.

(** C7.  Every path the discoverer returns is the join of a directory of
    the tree and the name of a file in it; the name ends with [.swift];
    the path of the directory contains none of [.build], [DerivedData]
    and [DesignSystem.swift]; and, directory names not starting with a
    slash, neither does the path of any directory above it, up to the base
    directory. *)
Theorem discoverer_sound (base : string) (t : Codemod.dtree) (p : string) :
  In p (Codemod.find_swift_files base t) ->
  exists chain root name,
    located base t chain root name
    /\ p = Path.join root name
    /\ Str.endswith ".swift" name = true
    /\ Str.contains ".build" root = false
    /\ Str.contains "DerivedData" root = false
    /\ Str.contains "DesignSystem.swift" root = false
    /\ (plain_names t = true ->
        Forall (fun a => Codemod.skipped a = false) chain).
Proof.
  rewrite find_swift_files_flat. intros Hin.
  apply in_flat_map in Hin. destruct Hin as ([[root dirs] files] & Hwalk & Hp).
  apply in_found_at in Hp. cbn [fst snd] in Hp.
  destruct Hp as (Hskip & name & Hname & Hext & ->).
  destruct (walk_located t _ _ _ _ _ Hwalk Hname) as (chain & Hloc).
  exists chain, root, name.
  pose proof Hskip as Hs. unfold Codemod.skipped in Hs.
  apply orb_false_elim in Hs. destruct Hs as [Hs1 Hs2].
  apply orb_false_elim in Hs2. destruct Hs2 as [Hs2 Hs3].
  do 6 (split; [first [assumption | reflexivity]|]).
  intros Hplain. apply List.Forall_forall. intros a Ha.
  destruct (Codemod.skipped a) eqn:Hsa; [|reflexivity].
  rewrite (located_ancestors _ _ _ _ _ Hloc Hplain a Ha Hsa) in Hskip.
  discriminate.
Qed.

(** X1.  The discovery is exhaustive: every [.swift] file of a directory
    whose path is not excluded is returned. *)
Lemma discoverer_complete (base : string) (t : Codemod.dtree)
    (chain : list string) (root name : string) :
  located base t chain root name ->
  Str.endswith ".swift" name = true ->
  Codemod.skipped root = false ->
  In (Path.join root name) (Codemod.find_swift_files base t).
Proof.
  intros Hloc Hext Hskip. rewrite find_swift_files_flat.
  destruct (located_walk _ _ _ _ _ Hloc) as (dirs & files & Hwalk & Hname).
  apply in_flat_map. exists (root, dirs, files). split; [exact Hwalk|].
  apply in_found_at. cbn [fst snd]. split; [exact Hskip|].
  exists name. auto.
Qed.

Lemma discoverer_sound_witness :
  Codemod.find_swift_files "/p" sample_tree = ["/p/App.swift"; "/p/Views/Card.swift"]
  /\ exists chain root name,
       located "/p" sample_tree chain root name
       /\ "/p/Views/Card.swift" = Path.join root name
       /\ Str.endswith ".swift" name = true
       /\ Str.contains ".build" root = false
       /\ Str.contains "DerivedData" root = false
       /\ Str.contains "DesignSystem.swift" root = false
       /\ (plain_names sample_tree = true ->
           Forall (fun a => Codemod.skipped a = false) chain).
Proof.
  split; [vm_compute; reflexivity|].
  apply (discoverer_sound "/p" sample_tree "/p/Views/Card.swift").
  vm_compute. right. left. reflexivity.
Defined.

(** ** The icon alpha remover *)

Lemma nth_error_combine {A B : Type} (l1 : list A) (l2 : list B) (i : nat)
    (a : A) (b : B) :
  nth_error l1 i = Some a -> nth_error l2 i = Some b ->
  nth_error (combine l1 l2) i = Some (a, b).
Proof.
  revert l2 i. induction l1 as [|x l1 IH]; intros l2 i H1 H2.
  - destruct i; discriminate.
  - destruct l2 as [|y l2]; [destruct i; discriminate|].
    destruct i as [|i]; cbn in *.
    + congruence.
    + apply IH; assumption.
Qed.

Lemma mix_BLEND8 (m a b : Z) :
  (0 <= m <= 255)%Z -> (0 <= a <= 255)%Z -> (0 <= b <= 255)%Z ->
  IconAlpha.mix m a b = IconAlpha.BLEND8 m a b.
Proof.
  intros Hm Ha Hb. unfold IconAlpha.mix, IconAlpha.BLEND8, IconAlpha.DIV255.
  destruct (Z.eqb_spec m 0) as [->|H0];
    [|destruct (Z.eqb_spec m 255) as [->|H255]; [|reflexivity]];
    cbv zeta; rewrite !Z.shiftr_div_pow2 by lia;
    change (2 ^ 8)%Z with 256%Z.
  - replace (a * (255 - 0) + b * 0)%Z with (a * 255)%Z by lia.
    Z.div_mod_to_equations. lia.
  - replace (a * (255 - 255) + b * 255)%Z with (b * 255)%Z by lia.
    Z.div_mod_to_equations. lia.
Qed.

Section PillowFacts.

Import IconAlpha.

(** What the library states of [paste]: where the mask is 0 the current
    value is kept, where it is 255 the given value is copied. *)
Variable blend : Z -> Z -> Z -> Z.
Hypothesis blend_0 : forall current given, blend 0 current given = current.
Hypothesis blend_255 : forall current given, blend 255 current given = given.

Variable png_can_write : string -> bool.
Hypothesis png_writes_RGB : png_can_write "RGB" = true.

Variable fs : gmap string entry.
Variable input_path output_path : string.

Lemma remove_alpha_with_alpha (img : image) :
  fs !! input_path = Some (ImageFile img) ->
  mode img = "RGBA" \/ mode img = "LA" ->
  remove_alpha blend png_can_write fs input_path output_path
  = Ok [Saved output_path (flattened blend img);
        Line (String.append "✅ Removed alpha channel from " input_path);
        Line (String.append "   Saved to: " output_path)].
Proof using png_writes_RGB.
  intros Hfs Hmode. unfold remove_alpha, open. rewrite Hfs. cbn [bind].
  unfold flattened, alpha_mask, alpha_value, save, split.
  destruct img as [m sz px]. cbn [mode size pixels] in *.
  destruct Hmode as [-> | ->]; cbn; rewrite png_writes_RGB; reflexivity.
Qed.

Lemma remove_alpha_without_alpha (img : image) :
  fs !! input_path = Some (ImageFile img) ->
  mode img <> "RGBA" -> mode img <> "LA" ->
  png_can_write (mode img) = true ->
  remove_alpha blend png_can_write fs input_path output_path
  = Ok [Saved output_path img;
        Line (String.append "ℹ️ Image has no alpha channel, copied to "
                output_path)].
Proof using Type.
  intros Hfs H1 H2 Hw. unfold remove_alpha, open. rewrite Hfs. cbn [bind].
  apply String.eqb_neq in H1, H2. cbn [existsb]. rewrite H1, H2. cbn [orb].
  unfold save. rewrite Hw. reflexivity.
Qed.

Lemma flattened_pixel (img : image) (i : nat) (px : list Z) :
  i < fst (size img) * snd (size img) ->
  nth_error (pixels img) i = Some px ->
  nth_error (pixels (flattened blend img)) i
  = Some (paste_pixel blend (mode img) white px [alpha_value (mode img) px]).
Proof using Type.
  intros Hi Hpx. unfold flattened, paste, new, alpha_mask. cbn [pixels mode size].
  rewrite nth_error_map.
  rewrite (nth_error_combine _ _ i (white, px) [alpha_value (mode img) px]).
  - reflexivity.
  - apply nth_error_combine; [apply nth_error_repeat; exact Hi|exact Hpx].
  - rewrite nth_error_map, Hpx. reflexivity.
Qed.

Lemma paste_pixel_ends (m : string) (px : list Z) (a : Z) :
  length (paste_pixel blend m white px [a]) = 3
  /\ (a = 0%Z -> paste_pixel blend m white px [a] = white)
  /\ (a = 255%Z -> paste_pixel blend m white px [a] = colour m px).
Proof using blend_0 blend_255.
  unfold paste_pixel, colour, white, band at 1.
  destruct (String.eqb m "LA"); cbn [nth combine map fst snd length];
    (split; [reflexivity|]); split; intros ->;
    rewrite ?blend_0, ?blend_255; reflexivity.
Qed.

(** C8.  With a paste that keeps the current value where the mask is 0 and
    copies the given value where it is 255, and a PNG writer that accepts
    mode RGB: for an input image in mode RGBA or LA, the script saves an
    image in mode RGB, of the same size, whose pixels have three bands; a
    pixel (r, g, b, 0) of an RGBA image and a pixel (l, 0) of an LA image
    become (255, 255, 255); a pixel (r, g, b, 255) becomes (r, g, b) and a
    pixel (l, 255) becomes (l, l, l).  For an input image in another mode
    that the PNG writer accepts, the script saves the input image itself:
    same mode, size and pixel data. *)
Theorem alpha_flattening (img : image) :
  fs !! input_path = Some (ImageFile img) ->
  (mode img = "RGBA" \/ mode img = "LA" ->
   exists out,
     remove_alpha blend png_can_write fs input_path output_path
     = Ok [Saved output_path out;
           Line (String.append "✅ Removed alpha channel from " input_path);
           Line (String.append "   Saved to: " output_path)]
     /\ mode out = "RGB"
     /\ size out = size img
     /\ forall i px,
          i < fst (size img) * snd (size img) ->
          nth_error (pixels img) i = Some px ->
          exists px',
            nth_error (pixels out) i = Some px'
            /\ length px' = 3
            /\ (forall r g b, mode img = "RGBA" -> px = [r; g; b; 0]%Z ->
                px' = [255; 255; 255]%Z)
            /\ (forall r g b, mode img = "RGBA" -> px = [r; g; b; 255]%Z ->
                px' = [r; g; b])
            /\ (forall l, mode img = "LA" -> px = [l; 0]%Z ->
                px' = [255; 255; 255]%Z)
            /\ (forall l, mode img = "LA" -> px = [l; 255]%Z ->
                px' = [l; l; l]))
  /\ (mode img <> "RGBA" -> mode img <> "LA" ->
      png_can_write (mode img) = true ->
      remove_alpha blend png_can_write fs input_path output_path
      = Ok [Saved output_path img;
            Line (String.append "ℹ️ Image has no alpha channel, copied to "
                    output_path)]).
Proof using blend_0 blend_255 png_writes_RGB.
  intros Hfs. split.
  - intros Hmode. exists (flattened blend img).
    split; [apply remove_alpha_with_alpha; assumption|].
    split; [reflexivity|]. split; [reflexivity|].
    intros i px Hi Hpx.
    exists (paste_pixel blend (mode img) white px [alpha_value (mode img) px]).
    split; [apply flattened_pixel; assumption|].
    destruct (paste_pixel_ends (mode img) px (alpha_value (mode img) px))
      as (Hlen & Hzero & Hfull).
    split; [exact Hlen|].
    split; [|split; [|split]].
    + intros r g b Hm ->. rewrite Hm in *. apply Hzero. reflexivity.
    + intros r g b Hm ->. rewrite Hm in *. rewrite Hfull; reflexivity.
    + intros l Hm ->. rewrite Hm in *. apply Hzero. reflexivity.
    + intros l Hm ->. rewrite Hm in *. rewrite Hfull; reflexivity.
  - apply remove_alpha_without_alpha. exact Hfs.
Qed.

(** C9.  When the input path does not exist the script exits with status
    1; its one effect is the line reporting the missing file: nothing is
    opened and nothing is saved. *)
Theorem missing_input_exits :
  fs !! input_file = None ->
  script blend png_can_write fs
  = (1, [Line (String.append "❌ Error: " (String.append input_file " not found"))])
  /\ fst (script blend png_can_write fs) <> 0
  /\ existsb is_saved (snd (script blend png_can_write fs)) = false.
Proof using Type.
  intros Hfs.
  assert (H : script blend png_can_write fs
              = (1, [Line (String.append "❌ Error: "
                             (String.append input_file " not found"))])).
  { unfold script, path_exists. rewrite Hfs. reflexivity. }
  rewrite H. split; [reflexivity|]. split; [discriminate|reflexivity].
Qed.

End PillowFacts.

Lemma mix_0 (current given : Z) : IconAlpha.mix 0 current given = current.
Proof. reflexivity. Qed.

Lemma mix_255 (current given : Z) : IconAlpha.mix 255 current given = given.
Proof. reflexivity. Qed.

Lemma alpha_flattening_witness :
  (exists out,
     IconAlpha.remove_alpha IconAlpha.mix IconAlpha.png_outmode
       {[ "in.png" := IconAlpha.ImageFile sample_icon ]} "in.png" "out.png"
     = Ok [IconAlpha.Saved "out.png" out;
           IconAlpha.Line "✅ Removed alpha channel from in.png";
           IconAlpha.Line "   Saved to: out.png"]
     /\ IconAlpha.mode out = "RGB"
     /\ IconAlpha.size out = (2, 2)
     /\ getpixel out 0 0 = Some [255; 255; 255]%Z
     /\ getpixel out 1 1 = Some [255; 0; 0]%Z)
  /\ (exists out,
        IconAlpha.remove_alpha IconAlpha.mix IconAlpha.png_outmode
          {[ "in.png" := IconAlpha.ImageFile sample_rgba ]} "in.png" "out.png"
        = Ok [IconAlpha.Saved "out.png" out;
              IconAlpha.Line "✅ Removed alpha channel from in.png";
              IconAlpha.Line "   Saved to: out.png"]
        /\ getpixel out 0 0 = Some [10; 20; 30]%Z
        /\ getpixel out 1 0 = Some [255; 255; 255]%Z)
  /\ (exists out,
        IconAlpha.remove_alpha IconAlpha.mix IconAlpha.png_outmode
          {[ "in.png" := IconAlpha.ImageFile sample_la ]} "in.png" "out.png"
        = Ok [IconAlpha.Saved "out.png" out;
              IconAlpha.Line "✅ Removed alpha channel from in.png";
              IconAlpha.Line "   Saved to: out.png"]
        /\ IconAlpha.mode out = "RGB"
        /\ getpixel out 0 0 = Some [200; 200; 200]%Z
        /\ getpixel out 1 0 = Some [255; 255; 255]%Z)
  /\ IconAlpha.remove_alpha IconAlpha.mix IconAlpha.png_outmode
       {[ "in.png" := IconAlpha.ImageFile sample_grey ]} "in.png" "out.png"
     = Ok [IconAlpha.Saved "out.png" sample_grey;
           IconAlpha.Line "ℹ️ Image has no alpha channel, copied to out.png"].
Proof.
  split; [|split; [|split]].
  - destruct (alpha_flattening IconAlpha.mix mix_0 mix_255
                IconAlpha.png_outmode eq_refl
                {[ "in.png" := IconAlpha.ImageFile sample_icon ]}
                "in.png" "out.png" sample_icon)
      as [H _]; [vm_compute; reflexivity|].
    destruct (H (or_introl eq_refl)) as (out & Hrun & Hmode & Hsize & Hpx).
    exists out. split; [exact Hrun|]. split; [exact Hmode|]. split; [exact Hsize|].
    unfold getpixel. rewrite Hsize. split.
    + destruct (Hpx 0 [12; 34; 56; 0]%Z) as (px' & Hn & _ & Hw & _);
        [cbn; lia|reflexivity|].
      vm_compute. vm_compute in Hn. rewrite Hn, (Hw _ _ _ eq_refl eq_refl). reflexivity.
    + destruct (Hpx 3 [255; 0; 0; 255]%Z) as (px' & Hn & _ & _ & Ho & _);
        [cbn; lia|reflexivity|].
      vm_compute. vm_compute in Hn. rewrite Hn, (Ho _ _ _ eq_refl eq_refl). reflexivity.
  - destruct (alpha_flattening IconAlpha.mix mix_0 mix_255
                IconAlpha.png_outmode eq_refl
                {[ "in.png" := IconAlpha.ImageFile sample_rgba ]}
                "in.png" "out.png" sample_rgba)
      as [H _]; [vm_compute; reflexivity|].
    destruct (H (or_introl eq_refl)) as (out & Hrun & Hmode & Hsize & Hpx).
    exists out. split; [exact Hrun|].
    unfold getpixel. rewrite Hsize. split.
    + destruct (Hpx 0 [10; 20; 30; 255]%Z) as (px' & Hn & _ & _ & Ho & _);
        [cbn; lia|reflexivity|].
      vm_compute. vm_compute in Hn. rewrite Hn, (Ho _ _ _ eq_refl eq_refl). reflexivity.
    + destruct (Hpx 1 [40; 50; 60; 0]%Z) as (px' & Hn & _ & Hw & _);
        [cbn; lia|reflexivity|].
      vm_compute. vm_compute in Hn. rewrite Hn, (Hw _ _ _ eq_refl eq_refl). reflexivity.
  - destruct (alpha_flattening IconAlpha.mix mix_0 mix_255
                IconAlpha.png_outmode eq_refl
                {[ "in.png" := IconAlpha.ImageFile sample_la ]}
                "in.png" "out.png" sample_la)
      as [H _]; [vm_compute; reflexivity|].
    destruct (H (or_intror eq_refl)) as (out & Hrun & Hmode & Hsize & Hpx).
    exists out. split; [exact Hrun|]. split; [exact Hmode|].
    unfold getpixel. rewrite Hsize. split.
    + destruct (Hpx 0 [200; 255]%Z) as (px' & Hn & _ & _ & _ & _ & Ho);
        [cbn; lia|reflexivity|].
      vm_compute. vm_compute in Hn. rewrite Hn, (Ho _ eq_refl eq_refl). reflexivity.
    + destruct (Hpx 1 [77; 0]%Z) as (px' & Hn & _ & _ & _ & Hw & _);
        [cbn; lia|reflexivity|].
      vm_compute. vm_compute in Hn. rewrite Hn, (Hw _ eq_refl eq_refl). reflexivity.
  - destruct (alpha_flattening IconAlpha.mix mix_0 mix_255
                IconAlpha.png_outmode eq_refl
                {[ "in.png" := IconAlpha.ImageFile sample_grey ]}
                "in.png" "out.png" sample_grey)
      as [_ H]; [vm_compute; reflexivity|].
    apply H; [discriminate|discriminate|reflexivity].
Defined.

Lemma missing_input_exits_witness :
  IconAlpha.script IconAlpha.mix IconAlpha.png_outmode ∅
  = (1,
     [IconAlpha.Line
        "❌ Error: /Users/kris/Epilogue/Epilogue/Epilogue/Assets.xcassets/AppIcon.appiconset/AppIcon-1024-original.png not found"]).
Proof.
  exact (proj1 (missing_input_exits IconAlpha.mix IconAlpha.png_outmode ∅ eq_refl)).
Defined.

(** * Further properties of the two scripts *)

(** ** One file at a time *)

Lemma process_file_outcome (fs : gmap string Codemod.file) (filepath : string) :
  Codemod.process_file fs filepath
  = let '(modified, written, evs) := outcome (fs !! filepath) filepath in
    (modified, commit filepath written fs, evs).
Proof.
  unfold Codemod.process_file, Codemod.process_file_body, Codemod.read_text,
    Codemod.write_text, outcome.
  destruct (fs !! filepath) as [f|] eqn:Hf; cbn [bind]; [|reflexivity].
  destruct (Codemod.reading f) as [text|e]; cbn [bind]; [|reflexivity].
  destruct (String.eqb (Codemod.apply_all text) text); cbn [negb]; [reflexivity|].
  destruct (Codemod.write_error f); reflexivity.
Qed.

Lemma commit_other (filepath q : string) (written : option string)
    (fs : gmap string Codemod.file) :
  q <> filepath -> commit filepath written fs !! q = fs !! q.
Proof.
  intros Hq. destruct written as [c|]; cbn [commit]; [|reflexivity].
  apply lookup_insert_ne. congruence.
Qed.

Lemma commit_comm (p q : string) (wp wq : option string)
    (fs : gmap string Codemod.file) :
  p <> q -> commit q wq (commit p wp fs) = commit p wp (commit q wq fs).
Proof.
  intros Hpq. destruct wp as [a|], wq as [b|]; cbn [commit]; try reflexivity.
  apply insert_insert_ne. congruence.
Qed.

(** X3.  [process_file] changes the disk at its own path only: whatever
    happens, every other path holds what it held. *)
Theorem process_file_frame (fs : gmap string Codemod.file) (filepath q : string) :
  q <> filepath ->
  (Codemod.process_file fs filepath).1.2 !! q = fs !! q.
Proof.
  intros Hq. rewrite process_file_outcome.
  destruct (outcome (fs !! filepath) filepath) as [[modified written] evs].
  cbn [fst snd]. apply commit_other. exact Hq.
Qed.

Lemma process_file_frame_witness :
  (Codemod.process_file two_files "/a.swift").1.2 !! "/b.swift"
  = Some (Codemod.plain_file ".opacity(0.50)").
Proof.
  rewrite (process_file_frame two_files "/a.swift" "/b.swift").
  - vm_compute. reflexivity.
  - discriminate.
Defined.

(** X4.  Files are independent units of work: for two different paths, the
    flag and the effects of processing one are the same before and after
    the other was processed, and the two orders leave the same disk. *)
Theorem process_file_independent (fs : gmap string Codemod.file) (p q : string) :
  p <> q ->
  let '(bp, fs1, evp) := Codemod.process_file fs p in
  let '(bq, fs2, evq) := Codemod.process_file fs q in
  let '(bq', fs12, evq') := Codemod.process_file fs1 q in
  let '(bp', fs21, evp') := Codemod.process_file fs2 p in
  bq' = bq /\ evq' = evq /\ bp' = bp /\ evp' = evp /\ fs12 = fs21.
Proof.
  intros Hpq. rewrite (process_file_outcome fs p), (process_file_outcome fs q).
  destruct (outcome (fs !! p) p) as [[bp wp] evp] eqn:Hp.
  destruct (outcome (fs !! q) q) as [[bq wq] evq] eqn:Hq.
  rewrite (process_file_outcome (commit p wp fs) q),
    (process_file_outcome (commit q wq fs) p).
  rewrite (commit_other p q wp fs) by congruence.
  rewrite (commit_other q p wq fs) by congruence.
  rewrite Hp, Hq. repeat split. apply commit_comm. exact Hpq.
Qed.

Lemma process_file_independent_witness :
  Codemod.process_file (Codemod.process_file two_files "/a.swift").1.2 "/b.swift"
  = (false, (Codemod.process_file two_files "/a.swift").1.2, []).
Proof.
  pose proof (process_file_independent two_files "/a.swift" "/b.swift") as H.
  destruct (Codemod.process_file two_files "/a.swift") as [[bp fs1] evp] eqn:Ha.
  destruct (Codemod.process_file two_files "/b.swift") as [[bq fs2] evq] eqn:Hb.
  cbn [fst snd].
  destruct (Codemod.process_file fs1 "/b.swift") as [[bq' fs12] evq'] eqn:Hab.
  destruct (Codemod.process_file fs2 "/a.swift") as [[bp' fs21] evp'] eqn:Hba.
  destruct H as (-> & -> & -> & -> & ->); [discriminate|].
  assert (Hb' : Codemod.process_file two_files "/b.swift" = (false, two_files, []))
    by (vm_compute; reflexivity).
  rewrite Hb' in Hb. inversion Hb; subst. rewrite Ha in Hba.
  inversion Hba; subst. reflexivity.
Defined.

(** ** The loop of [main] *)

Lemma outcome_shape (o : option Codemod.file) (p : string) :
  (exists c, outcome o p = (true, Some c, [Codemod.Wrote p c]))
  \/ outcome o p = (false, None, [])
  \/ exists e, outcome o p = (false, None, [Codemod.Line (Codemod.error_line p e)]).
Proof.
  unfold outcome. destruct o as [f|]; [|right; right; eauto].
  destruct (Codemod.reading f) as [text|e]; [|right; right; eauto].
  destruct (String.eqb (Codemod.apply_all text) text); [right; left; reflexivity|].
  destruct (Codemod.write_error f); [right; right; eauto|left; eauto].
Qed.

Lemma count_events_app (f : Codemod.event -> bool) (a b : list Codemod.event) :
  count_events f (a ++ b) = count_events f a + count_events f b.
Proof. unfold count_events. rewrite List.filter_app, length_app. reflexivity. Qed.

Lemma process_step_turn (fs : gmap string Codemod.file) (k : nat)
    (out : list Codemod.event) (p : string) :
  exists written added,
    Codemod.process_step (fs, k, out) p
    = (commit p written fs, k + count_events is_updated added, out ++ added)
    /\ run_ok [p] added.
Proof.
  unfold Codemod.process_step. rewrite process_file_outcome.
  destruct (outcome_shape (fs !! p) p) as [(c & ->)|[->|(e & ->)]].
  - exists (Some c), [Codemod.Wrote p c; Codemod.Updated p]. split.
    + cbn. rewrite ?Nat.add_1_r, ?Nat.add_0_r. reflexivity.
    + unfold run_ok. split; [reflexivity|]. split; [cbn; lia|].
      split; [reflexivity|]. apply List.Forall_forall.
      intros ev [<-|[<-|[]]] q Hq; inversion Hq; left; reflexivity.
  - exists None, []. split.
    + cbn. rewrite app_nil_r, Nat.add_0_r. reflexivity.
    + unfold run_ok. split; [reflexivity|]. split; [cbn; lia|].
      split; [reflexivity|]. constructor.
  - exists None, [Codemod.Line (Codemod.error_line p e)]. split.
    + cbn. rewrite ?Nat.add_1_r, ?Nat.add_0_r. reflexivity.
    + unfold run_ok. split; [reflexivity|]. split; [cbn; lia|].
      split; [reflexivity|]. apply List.Forall_forall.
      intros ev [<-|[]] q Hq; inversion Hq.
Qed.

Lemma run_ok_app (p : string) (l : list string) (a b : list Codemod.event) :
  run_ok [p] a -> run_ok l b -> run_ok (p :: l) (a ++ b).
Proof.
  unfold run_ok. intros (Ha1 & Ha2 & Ha3 & Ha4) (Hb1 & Hb2 & Hb3 & Hb4).
  rewrite !count_events_app, forallb_app, Ha3, Hb3. cbn [length] in *.
  repeat split; try lia.
  apply Forall_app. split.
  - eapply List.Forall_impl; [|exact Ha4]. intros ev H q Hq.
    destruct (H q Hq) as [<-|[]]. left. reflexivity.
  - eapply List.Forall_impl; [|exact Hb4]. intros ev H q Hq. right. auto.
Qed.

Lemma process_loop (l : list string) :
  forall (fs : gmap string Codemod.file) (k : nat) (out : list Codemod.event),
  exists fs' added,
    fold_left Codemod.process_step l (fs, k, out)
    = (fs', k + count_events is_updated added, out ++ added)
    /\ run_ok l added
    /\ forall q, ~ In q l -> fs' !! q = fs !! q.
Proof.
  induction l as [|p l IH]; intros fs k out.
  - exists fs, []. cbn [fold_left]. split; [|split].
    + rewrite app_nil_r. cbn. rewrite Nat.add_0_r. reflexivity.
    + unfold run_ok. split; [reflexivity|]. split; [cbn; lia|].
      split; [reflexivity|]. constructor.
    + reflexivity.
  - cbn [fold_left].
    destruct (process_step_turn fs k out p) as (written & a & -> & Ha).
    destruct (IH (commit p written fs) (k + count_events is_updated a) (out ++ a))
      as (fs' & b & -> & Hb & Hframe).
    exists fs', (a ++ b). split; [|split].
    + rewrite count_events_app, <- app_assoc, Nat.add_assoc. reflexivity.
    + apply run_ok_app; assumption.
    + intros q Hq. rewrite Hframe by (intros H; apply Hq; right; exact H).
      apply commit_other. intros ->. apply Hq. left. reflexivity.
Qed.

(** X5.  The report of [main]: after the banner and the number of files
    found come the effects of the loop and then the count of modified
    files; that count is the number of "Updated" lines, which is the
    number of writes, and is at most the number of files found. *)
Theorem main_report (t : Codemod.dtree) (fs : gmap string Codemod.file) :
  exists added,
    (Codemod.main t fs).2
    = [Codemod.Banner;
       Codemod.Found (length (Codemod.find_swift_files Codemod.BASE_DIR t))]
      ++ added
      ++ [Codemod.Complete (count_events is_updated added)]
    /\ count_events is_updated added = count_events is_write added
    /\ count_events is_updated added
       <= length (Codemod.find_swift_files Codemod.BASE_DIR t)
    /\ forallb loop_event added = true.
Proof.
  unfold Codemod.main, Codemod.process_files.
  destruct (process_loop (Codemod.find_swift_files Codemod.BASE_DIR t) fs 0 [])
    as (fs' & added & -> & (H1 & H2 & H3 & _) & _).
  exists added. cbn [snd app Nat.add]. auto.
Qed.

(** X6.  [main] rewrites discovered files only: a path that the discoverer
    did not return holds afterwards what it held before, and every write
    and every "Updated" line is about a path the discoverer returned. *)
Theorem main_touches_found_only (t : Codemod.dtree) (fs : gmap string Codemod.file) :
  (forall q,
      ~ In q (Codemod.find_swift_files Codemod.BASE_DIR t) ->
      (Codemod.main t fs).1 !! q = fs !! q)
  /\ Forall (fun ev => forall q,
                event_path ev = Some q ->
                In q (Codemod.find_swift_files Codemod.BASE_DIR t))
       (Codemod.main t fs).2.
Proof.
  unfold Codemod.main, Codemod.process_files.
  destruct (process_loop (Codemod.find_swift_files Codemod.BASE_DIR t) fs 0 [])
    as (fs' & added & -> & (_ & _ & _ & H4) & Hframe).
  cbn [fst snd]. split; [exact Hframe|].
  constructor; [intros q Hq; inversion Hq|].
  constructor; [intros q Hq; inversion Hq|].
  cbn [app]. apply Forall_app. split; [exact H4|].
  constructor; [intros q Hq; inversion Hq|constructor].
Qed.

Lemma main_touches_found_only_witness :
  (Codemod.main sample_tree two_files).1 !! "/b.swift"
  = Some (Codemod.plain_file ".opacity(0.50)").
Proof.
  rewrite (proj1 (main_touches_found_only sample_tree two_files) "/b.swift").
  - vm_compute. reflexivity.
  - vm_compute. intros [H|[H|[]]]; discriminate.
Defined.

(** ** More on the discoverer *)

Lemma discoverer_complete_witness :
  In "/p/Views/Card.swift" (Codemod.find_swift_files "/p" sample_tree).
Proof.
  apply (discoverer_complete "/p" sample_tree ["/p"; "/p/Views"] "/p/Views" "Card.swift").
  - apply (located_below "/p" _ _ "Views" (Codemod.Dir ["Card.swift"] []));
      [left; reflexivity|].
    apply (located_here "/p/Views"). left. reflexivity.
  - vm_compute. reflexivity.
  - vm_compute. reflexivity.
Defined.

Lemma walk_under_skipped (t : Codemod.dtree) :
  forall top entry,
    plain_names t = true ->
    Codemod.skipped top = true ->
    In entry (Codemod.walk top t) ->
    Codemod.skipped entry.1.1 = true.
Proof.
  induction t as [files subdirs IH] using dtree_induction.
  intros top entry Hplain Hskip Hin.
  cbn [Codemod.walk] in Hin. destruct Hin as [<-|Hin]; [exact Hskip|].
  apply in_flat_map in Hin. destruct Hin as ([d sub] & Hsub & Hin).
  cbn [plain_names] in Hplain. rewrite forallb_forall in Hplain.
  specialize (Hplain _ Hsub). cbn [fst snd] in Hplain, Hin.
  apply andb_true_iff in Hplain. destruct Hplain as [Hd Hsubplain].
  apply negb_true_iff in Hd.
  rewrite List.Forall_forall in IH.
  apply (IH _ Hsub (Path.join top d) entry Hsubplain); [|exact Hin].
  apply skipped_join; assumption.
Qed.

(** X2.  A walk from a base directory whose own path is excluded finds
    nothing: every directory below it has the excluded text in its path
    too (directory names not starting with a slash). *)
Theorem nothing_found_under_skipped_base (base : string) (t : Codemod.dtree) :
  plain_names t = true ->
  Codemod.skipped base = true ->
  Codemod.find_swift_files base t = [].
Proof.
  intros Hplain Hskip. rewrite find_swift_files_flat.
  pose proof (walk_under_skipped t base) as H.
  induction (Codemod.walk base t) as [|entry l IHl]; [reflexivity|].
  cbn [flat_map]. unfold found_at at 1.
  rewrite (H entry Hplain Hskip) by (left; reflexivity).
  apply IHl. intros e Hp Hs Hin. apply H; [assumption|assumption|right; exact Hin].
Qed.

Lemma nothing_found_under_skipped_base_witness :
  Codemod.find_swift_files "/home/me/.build/checkout" sample_tree = [].
Proof.
  apply nothing_found_under_skipped_base; vm_compute; reflexivity.
Defined.

(** ** More on the import step *)

Lemma length_append (a b : string) :
  String.length (String.append a b) = String.length a + String.length b.
Proof.
  induction a as [|c a IH]; [reflexivity|].
  change (String.append (String c a) b) with (String c (String.append a b)).
  cbn [String.length]. rewrite IH. reflexivity.
Qed.

Lemma replace_first_leftmost (old new s : string) :
  Str.contains old s = true ->
  exists pre post,
    s = String.append pre (String.append old post)
    /\ Str.replace_first old new s = String.append pre (String.append new post)
    /\ forall pre1 rest,
         pre = String.append pre1 rest -> rest <> EmptyString ->
         Str.startswith old (String.append rest (String.append old post)) = false.
Proof.
  induction s as [|c s IH]; intros H.
  - cbn [Str.contains] in H. rewrite orb_false_r in H.
    exists EmptyString, (Str.drop (String.length old) EmptyString).
    cbn [Str.replace_first]. rewrite H. split; [|split; [reflexivity|]].
    + apply (startswith_split old EmptyString H).
    + intros pre1 rest Hpre Hrest. destruct pre1; [|discriminate].
      change (String.append EmptyString rest) with rest in Hpre. congruence.
  - cbn [Str.replace_first]. destruct (Str.startswith old (String c s)) eqn:Hs.
    + exists EmptyString, (Str.drop (String.length old) (String c s)).
      split; [|split; [reflexivity|]].
      * apply (startswith_split old (String c s) Hs).
      * intros pre1 rest Hpre Hrest. destruct pre1; [|discriminate].
        change (String.append EmptyString rest) with rest in Hpre. congruence.
    + cbn [Str.contains] in H. rewrite Hs in H. cbn [orb] in H.
      destruct (IH H) as (pre & post & Heq & Hrep & Hleft).
      exists (String c pre), post. split; [|split].
      * rewrite Heq at 1. reflexivity.
      * rewrite Hrep. reflexivity.
      * intros pre1 rest Hpre Hrest. destruct pre1 as [|c1 pre1].
        -- change (String.append EmptyString rest) with rest in Hpre. subst rest.
           change (String.append (String c pre) (String.append old post))
             with (String c (String.append pre (String.append old post))).
           rewrite <- Heq. exact Hs.
        -- change (String.append (String c1 pre1) rest)
             with (String c1 (String.append pre1 rest)) in Hpre.
           inversion Hpre; subst. apply (Hleft pre1 rest eq_refl Hrest).
Qed.

(** X7.  Where the import step applies (the text contains [import SwiftUI]
    and nowhere [DesignSystem]), it inserts the line [import DesignSystem]
    right after the leftmost [import SwiftUI], changes nothing else, and
    so lengthens the text by 20 characters. *)
Theorem add_import_inserts_once (content : string) :
  Str.contains "import SwiftUI" content = true ->
  Str.contains "DesignSystem" content = false ->
  exists pre post,
    content = String.append pre (String.append "import SwiftUI" post)
    /\ Codemod.add_import content = String.append pre (String.append import_line post)
    /\ (forall pre1 rest,
          pre = String.append pre1 rest -> rest <> EmptyString ->
          Str.startswith "import SwiftUI"
            (String.append rest (String.append "import SwiftUI" post)) = false)
    /\ String.length (Codemod.add_import content) = String.length content + 20.
Proof.
  intros Hbase Href.
  destruct (replace_first_leftmost "import SwiftUI" import_line content Hbase)
    as (pre & post & Heq & Hrep & Hleft).
  assert (Hadd : Codemod.add_import content
                 = String.append pre (String.append import_line post)).
  { unfold Codemod.add_import. rewrite Hbase, Href. exact Hrep. }
  exists pre, post. split; [exact Heq|]. split; [exact Hadd|]. split; [exact Hleft|].
  rewrite Hadd, Heq, !length_append.
  change (String.length import_line) with 34.
  change (String.length "import SwiftUI") with 14. lia.
Qed.

Lemma add_import_inserts_once_witness :
  String.length
    (Codemod.add_import
       ("// import SwiftUI" +:+ newline +:+ "import SwiftUI" +:+ newline))
  = String.length ("// import SwiftUI" +:+ newline +:+ "import SwiftUI" +:+ newline)
    + 20.
Proof.
  destruct (add_import_inserts_once
              ("// import SwiftUI" +:+ newline +:+ "import SwiftUI" +:+ newline))
    as (pre & post & _ & _ & _ & Hlen); [reflexivity|reflexivity|].
  exact Hlen.
Defined.

(** X8.  The import step is idempotent: applied to its own result it
    changes nothing, so the import line is never inserted twice. *)
Theorem add_import_idempotent (content : string) :
  Codemod.add_import (Codemod.add_import content) = Codemod.add_import content.
Proof.
  destruct (Str.contains "import SwiftUI" content
            && negb (Str.contains "DesignSystem" content)) eqn:Hc.
  - apply andb_true_iff in Hc. destruct Hc as [Hbase Href].
    apply negb_true_iff in Href.
    destruct (replace_first_leftmost "import SwiftUI" import_line content Hbase)
      as (pre & post & _ & Hrep & _).
    assert (Hadd : Codemod.add_import content
                   = String.append pre (String.append import_line post)).
    { unfold Codemod.add_import. rewrite Hbase, Href. exact Hrep. }
    rewrite Hadd. apply add_import_with_reference.
    apply contains_after, contains_before. vm_compute. reflexivity.
  - assert (Hid : Codemod.add_import content = content).
    { unfold Codemod.add_import. fold import_line. rewrite Hc. reflexivity. }
    rewrite Hid. exact Hid.
Qed.

(** ** A second run on the same file *)

(** X9.  When a file was rewritten and no rule matches the text written,
    processing it again reads that text back, returns [False], and has no
    effect. *)
Theorem process_file_settles
    (fs : gmap string Codemod.file) (filepath : string)
    (f : Codemod.file) (text : string) :
  fs !! filepath = Some f ->
  Codemod.reading f = Ok text ->
  Codemod.write_error f = None ->
  Codemod.apply_all text <> text ->
  no_match_in Codemod.ALL_RULES (Codemod.add_import (Codemod.apply_all text)) ->
  let fs' := (Codemod.process_file fs filepath).1.2 in
  Codemod.read_text fs' filepath = Ok (Codemod.add_import (Codemod.apply_all text))
  /\ Codemod.process_file fs' filepath = (false, fs', []).
Proof.
  intros Hf Hr Hw Hne Hno fs'.
  assert (Hfs' : fs' = <[filepath :=
                   Codemod.plain_file (Codemod.add_import (Codemod.apply_all text))]> fs).
  { unfold fs'.
    rewrite (process_file_changed fs filepath text
               (<[filepath := Codemod.plain_file
                                (Codemod.add_import (Codemod.apply_all text))]> fs)).
    - reflexivity.
    - eapply read_text_lookup; eauto.
    - exact Hne.
    - eapply write_text_permitted; eauto. }
  assert (Hread : Codemod.read_text fs' filepath
                  = Ok (Codemod.add_import (Codemod.apply_all text))).
  { rewrite Hfs'. unfold Codemod.read_text. rewrite lookup_insert_eq. reflexivity. }
  split; [exact Hread|].
  apply (process_file_unchanged fs' filepath _ Hread).
  apply apply_all_no_match. exact Hno.
Qed.

Lemma process_file_settles_witness :
  Codemod.process_file
    (Codemod.process_file (one_file "/V.swift" ".padding(24)") "/V.swift").1.2
    "/V.swift"
  = (false,
     (Codemod.process_file (one_file "/V.swift" ".padding(24)") "/V.swift").1.2,
     []).
Proof.
  refine (proj2 (process_file_settles (one_file "/V.swift" ".padding(24)") "/V.swift"
                   (Codemod.plain_file ".padding(24)") ".padding(24)" _ _ _ _ _)).
  - vm_compute. reflexivity.
  - reflexivity.
  - reflexivity.
  - vm_compute. discriminate.
  - apply no_matchb_spec. vm_compute. reflexivity.
Defined.

(** ** What a rule can match *)

Lemma match_here_within (r : Re.regex) :
  forall s n, Re.match_here r s = Some n -> n <= String.length s.
Proof.
  induction r as [|[k|k] r IH]; intros s n H.
  - cbn in H. inversion H. lia.
  - destruct s as [|c s]; cbn [Re.match_here] in H; [discriminate|].
    destruct (Re.in_class k c); [|discriminate].
    destruct (Re.match_here r s) as [m|] eqn:Hm; [|discriminate].
    cbn in H. inversion H. specialize (IH _ _ Hm). cbn [String.length]. lia.
  - revert n H. induction s as [|c s IHs]; intros n H.
    + cbn in H. apply IH in H. exact H.
    + cbn [Re.match_here] in H. destruct (Re.in_class k c).
      * change ((fix star (s0 : string) : option nat :=
                   match s0 with
                   | EmptyString => Re.match_here r s0
                   | String c0 s' =>
                       if Re.in_class k c0
                       then match star s' with
                            | Some n0 => Some (S n0)
                            | None => Re.match_here r s0
                            end
                       else Re.match_here r s0
                   end) s)
          with (Re.match_here (Re.Star k :: r) s) in H.
        destruct (Re.match_here (Re.Star k :: r) s) as [m|] eqn:Hm.
        -- inversion H. specialize (IHs _ eq_refl). cbn [String.length]. lia.
        -- apply IH in H. exact H.
      * apply IH in H. exact H.
Qed.

Lemma match_here_one_positive (r : Re.regex) (s : string) (n : nat) :
  starts_with_one r = true -> Re.match_here r s = Some n -> 0 < n.
Proof.
  destruct r as [|[k|k] r]; try discriminate. intros _ H.
  destruct s as [|c s]; cbn [Re.match_here] in H; [discriminate|].
  destruct (Re.in_class k c); [|discriminate].
  destruct (Re.match_here r s); [|discriminate]. cbn in H. inversion H. lia.
Qed.

(** X10.  No rule of any table matches the empty string: wherever the
    pattern of a rule matches, the match takes at least one character and
    lies within the text. *)
Theorem rules_match_nonempty (r : Codemod.rule) (s : string) (n : nat) :
  In r Codemod.ALL_RULES ->
  Re.match_here (Re.compile (fst r)) s = Some n ->
  0 < n <= String.length s.
Proof.
  intros Hin H. split; [|apply (match_here_within _ _ _ H)].
  assert (Hall : forallb (fun r : Codemod.rule => starts_with_one (Re.compile (fst r)))
                   Codemod.ALL_RULES = true) by (vm_compute; reflexivity).
  rewrite forallb_forall in Hall.
  apply (match_here_one_positive _ s n (Hall r Hin) H).
Qed.

Lemma rules_match_nonempty_witness : 0 < 22 <= String.length ".white.opacity(0.7555);".
Proof.
  apply (rules_match_nonempty
           ("\.white\.opacity\(0\.7\d*\)", "DesignSystem.Colors.textSecondary")).
  - vm_compute. right. right. left. reflexivity.
  - vm_compute. reflexivity.
Defined.

(** ** More on the icon alpha remover *)

Section PillowMore.

Import IconAlpha.

Variable blend : Z -> Z -> Z -> Z.
Variable png_can_write : string -> bool.

Lemma alpha_mode_cases (m : string) :
  existsb (String.eqb m) ["RGBA"; "LA"] = true <-> m = "RGBA" \/ m = "LA".
Proof.
  cbn [existsb]. rewrite orb_false_r, orb_true_iff, !String.eqb_eq. reflexivity.
Qed.

Lemma remove_alpha_alpha_branch (fs : gmap string entry) (i o : string) (img : image) :
  fs !! i = Some (ImageFile img) ->
  mode img = "RGBA" \/ mode img = "LA" ->
  remove_alpha blend png_can_write fs i o
  = if png_can_write "RGB"
    then Ok [Saved o (flattened blend img);
             Line (String.append "✅ Removed alpha channel from " i);
             Line (String.append "   Saved to: " o)]
    else Raise (Exception "cannot write mode RGB as PNG").
Proof using Type.
  intros Hfs Hmode. unfold remove_alpha, open. rewrite Hfs. cbn [bind].
  unfold flattened, alpha_mask, alpha_value, save, split.
  destruct img as [m sz px]. cbn [mode size pixels] in *.
  destruct Hmode as [-> | ->]; cbn; destruct (png_can_write "RGB"); reflexivity.
Qed.

Lemma remove_alpha_ok_inv (fs : gmap string entry) (i o : string)
    (evs : list event) :
  remove_alpha blend png_can_write fs i o = Ok evs ->
  exists img saved rest,
    fs !! i = Some (ImageFile img)
    /\ evs = Saved o saved :: rest
    /\ existsb is_saved rest = false
    /\ png_can_write (mode saved) = true
    /\ size saved = size img
    /\ mode saved <> "RGBA" /\ mode saved <> "LA"
    /\ (saved = img \/ saved = flattened blend img).
Proof using Type.
  intros H.
  destruct (fs !! i) as [[img|]|] eqn:Hfs;
    [|unfold remove_alpha, open in H; rewrite Hfs in H; discriminate
     |unfold remove_alpha, open in H; rewrite Hfs in H; discriminate].
  destruct (existsb (String.eqb (mode img)) ["RGBA"; "LA"]) eqn:Hm.
  - apply alpha_mode_cases in Hm.
    rewrite (remove_alpha_alpha_branch fs i o img Hfs Hm) in H.
    destruct (png_can_write "RGB") eqn:Hw; [|discriminate].
    inversion H; subst. exists img, (flattened blend img). eexists.
    split; [reflexivity|]. split; [reflexivity|]. split; [reflexivity|].
    split; [exact Hw|]. split; [reflexivity|].
    split; [discriminate|]. split; [discriminate|]. right. reflexivity.
  - assert (H1 : mode img <> "RGBA")
      by (intros E; rewrite (proj2 (alpha_mode_cases _) (or_introl E)) in Hm;
          discriminate).
    assert (H2 : mode img <> "LA")
      by (intros E; rewrite (proj2 (alpha_mode_cases _) (or_intror E)) in Hm;
          discriminate).
    unfold remove_alpha, open in H. rewrite Hfs in H. cbn [bind] in H.
    rewrite Hm in H. unfold save in H.
    destruct (png_can_write (mode img)) eqn:Hw; [|discriminate].
    cbn [bind app] in H. inversion H; subst. exists img, img. eexists.
    split; [reflexivity|]. split; [reflexivity|]. split; [reflexivity|].
    split; [exact Hw|]. split; [reflexivity|]. auto.
Qed.

(** X11.  The exit status of the script tells whether an image was saved:
    either the status is 0 and the effects begin with the one save, at the
    output path, of an image of the size of the input and without alpha
    mode; or the status is 1 and the only effect is one printed line. *)
Theorem script_outcome (fs : gmap string entry) :
  (exists img saved rest,
     fs !! input_file = Some (ImageFile img)
     /\ script blend png_can_write fs = (0, Saved output_file saved :: rest)
     /\ existsb is_saved rest = false
     /\ size saved = size img
     /\ mode saved <> "RGBA" /\ mode saved <> "LA")
  \/ exists text, script blend png_can_write fs = (1, [Line text]).
Proof using Type.
  unfold script, path_exists.
  destruct (fs !! input_file) as [e|] eqn:Hfs; cbn [negb]; [|right; eauto].
  destruct (remove_alpha blend png_can_write fs input_file output_file)
    as [evs|err] eqn:Hrun; [|right; eauto].
  destruct (remove_alpha_ok_inv _ _ _ _ Hrun)
    as (img & saved & rest & Hi & -> & Hrest & _ & Hsize & H1 & H2 & _).
  left. exists img, saved, rest. rewrite Hfs in Hi. auto 10.
Qed.

(** X12.  The transform is idempotent: an image that the script saved, given
    back as input, is copied as it is. *)
Theorem remove_alpha_idempotent
    (fs fs2 : gmap string entry) (i o i2 o2 : string)
    (evs : list event) (saved : image) :
  remove_alpha blend png_can_write fs i o = Ok evs ->
  In (Saved o saved) evs ->
  fs2 !! i2 = Some (ImageFile saved) ->
  remove_alpha blend png_can_write fs2 i2 o2
  = Ok [Saved o2 saved;
        Line (String.append "ℹ️ Image has no alpha channel, copied to " o2)].
Proof using Type.
  intros Hrun Hin Hfs2.
  destruct (remove_alpha_ok_inv _ _ _ _ Hrun)
    as (img & saved0 & rest & _ & -> & Hrest & Hw & _ & H1 & H2 & _).
  assert (saved = saved0) as ->.
  { destruct Hin as [E|Hin]; [inversion E; reflexivity|].
    assert (existsb is_saved rest = true)
      by (apply existsb_exists; exists (Saved o saved); auto).
    congruence. }
  apply remove_alpha_without_alpha; assumption.
Qed.

End PillowMore.

Lemma remove_alpha_idempotent_witness :
  IconAlpha.remove_alpha IconAlpha.mix IconAlpha.png_outmode
    {[ "again.png" := IconAlpha.ImageFile (flattened IconAlpha.mix sample_icon) ]}
    "again.png" "out2.png"
  = Ok [IconAlpha.Saved "out2.png" (flattened IconAlpha.mix sample_icon);
        IconAlpha.Line "ℹ️ Image has no alpha channel, copied to out2.png"].
Proof.
  apply (remove_alpha_idempotent IconAlpha.mix IconAlpha.png_outmode
           {[ "in.png" := IconAlpha.ImageFile sample_icon ]} _
           "in.png" "out.png" "again.png" "out2.png"
           [IconAlpha.Saved "out.png" (flattened IconAlpha.mix sample_icon);
            IconAlpha.Line "✅ Removed alpha channel from in.png";
            IconAlpha.Line "   Saved to: out.png"]).
  - vm_compute. reflexivity.
  - left. reflexivity.
  - vm_compute. reflexivity.
Defined.

(** * A second pass of the pipeline *)

(** ** Matching, step by step *)

Lemma match_here_star_cons (k : Re.cclass) (q : Re.regex) (c : ascii) (s : string) :
  Re.match_here (Re.Star k :: q) (String c s)
  = if Re.in_class k c
    then match Re.match_here (Re.Star k :: q) s with
         | Some n => Some (S n)
         | None => Re.match_here q (String c s)
         end
    else Re.match_here q (String c s).
Proof. reflexivity. Qed.

Lemma match_here_star_nil (k : Re.cclass) (q : Re.regex) :
  Re.match_here (Re.Star k :: q) EmptyString = Re.match_here q EmptyString.
Proof. reflexivity. Qed.

Lemma match_here_one_cons (k : Re.cclass) (q : Re.regex) (c : ascii) (s : string) :
  Re.match_here (Re.One k :: q) (String c s)
  = if Re.in_class k c then option_map S (Re.match_here q s) else None.
Proof. reflexivity. Qed.

Lemma compat_star_cons (k : Re.cclass) (q : Re.regex) (c : ascii) (x : string) :
  compat (Re.Star k :: q) (String c x)
  = if (if Re.in_class k c then compat (Re.Star k :: q) x else false) then true
    else compat q (String c x).
Proof. reflexivity. Qed.

Lemma compat_empty (q : Re.regex) : compat q EmptyString = true.
Proof. destruct q as [|[k|k] q]; reflexivity. Qed.

Lemma append_cons (c : ascii) (a b : string) :
  String.append (String c a) b = String c (String.append a b).
Proof. reflexivity. Qed.

Lemma append_empty_l (b : string) : String.append EmptyString b = b.
Proof. reflexivity. Qed.

Lemma append_empty_r (a : string) : String.append a EmptyString = a.
Proof.
  induction a as [|c a IH]; [reflexivity|]. rewrite append_cons, IH. reflexivity.
Qed.

Lemma append_assoc (a b c : string) :
  String.append (String.append a b) c = String.append a (String.append b c).
Proof.
  induction a as [|x a IH]; [reflexivity|]. rewrite !append_cons, IH. reflexivity.
Qed.

(** A match that starts where [x] starts shows that the pattern and [x]
    agree as far as the shorter goes. *)
Lemma compat_of_match (q : Re.regex) :
  forall x z n, Re.match_here q (String.append x z) = Some n -> compat q x = true.
Proof.
  induction q as [|[k|k] q IH]; intros x z n H.
  - reflexivity.
  - destruct x as [|c x]; [reflexivity|].
    rewrite append_cons, match_here_one_cons in H. cbn [compat].
    destruct (Re.in_class k c); [|discriminate].
    destruct (Re.match_here q (String.append x z)) as [m|] eqn:Hm; [|discriminate].
    apply (IH _ _ _ Hm).
  - revert n H. induction x as [|c x IHx]; intros n H; [apply compat_empty|].
    rewrite append_cons, match_here_star_cons in H. rewrite compat_star_cons.
    destruct (Re.in_class k c).
    + destruct (Re.match_here (Re.Star k :: q) (String.append x z)) as [m|] eqn:Hm.
      * rewrite (IHx _ eq_refl). reflexivity.
      * rewrite <- append_cons in H. rewrite (IH _ _ _ H).
        destruct (compat (Re.Star k :: q) x); reflexivity.
    + rewrite <- append_cons in H. apply (IH _ _ _ H).
Qed.

Lemma compat_of_match_whole (q : Re.regex) (y : string) (n : nat) :
  Re.match_here q y = Some n -> compat q y = true.
Proof.
  intros H. apply (compat_of_match q y EmptyString n).
  rewrite append_empty_r. exact H.
Qed.

Lemma compat_prefix (q : Re.regex) :
  forall x z, compat q (String.append x z) = true -> compat q x = true.
Proof.
  induction q as [|[k|k] q IH]; intros x z H.
  - reflexivity.
  - destruct x as [|c x]; [reflexivity|]. rewrite append_cons in H.
    cbn [compat] in *. destruct (Re.in_class k c); [|discriminate].
    apply (IH _ _ H).
  - induction x as [|c x IHx]; [apply compat_empty|].
    rewrite append_cons, compat_star_cons in H. rewrite compat_star_cons.
    destruct (Re.in_class k c).
    + destruct (compat (Re.Star k :: q) (String.append x z)) eqn:Hs.
      * rewrite (IHx eq_refl). reflexivity.
      * rewrite <- append_cons in H. rewrite (IH _ _ H).
        destruct (compat (Re.Star k :: q) x); reflexivity.
    + rewrite <- append_cons in H. apply (IH _ _ H).
Qed.

Lemma tails_self (q : Re.regex) : In q (tails q).
Proof. destruct q; left; reflexivity. Qed.

Lemma tails_after_tails (q t : Re.regex) : In t (tails_after q) -> In t (tails q).
Proof. destruct q as [|[k|k] q]; cbn; auto. Qed.

Lemma tails_cons (i : Re.item) (q t : Re.regex) : In t (tails q) -> In t (tails (i :: q)).
Proof. intros H. right. exact H. Qed.

Lemma match_here_nil (s : string) : Re.match_here [] s = Some 0.
Proof. destruct s; reflexivity. Qed.

(** A match that starts in [u], a non-empty text, and goes on past its end
    leaves a non-empty rest of the pattern to agree with what follows. *)
Lemma overlap_tail (q : Re.regex) :
  forall u y n,
    Re.match_here q (String.append u y) = Some n ->
    String.length u < n ->
    u <> EmptyString ->
    exists t, In t (tails_after q) /\ t <> [] /\ compat t y = true.
Proof.
  induction q as [|[k|k] q IH]; intros u y n H Hn Hu.
  - rewrite match_here_nil in H. inversion H. lia.
  - destruct u as [|c u]; [congruence|].
    rewrite append_cons, match_here_one_cons in H.
    destruct (Re.in_class k c); [|discriminate].
    destruct (Re.match_here q (String.append u y)) as [m|] eqn:Hm; [|discriminate].
    cbn in H. inversion H; subst n. cbn [String.length] in Hn.
    destruct u as [|c' u].
    + exists q. split; [apply tails_self|]. split.
      * intros ->. rewrite append_empty_l, match_here_nil in Hm.
        inversion Hm. subst m. cbn in Hn. lia.
      * rewrite append_empty_l in Hm. apply (compat_of_match_whole _ _ _ Hm).
    + destruct (IH (String c' u) y m Hm ltac:(lia) ltac:(discriminate))
        as (t & Ht & Hne & Hc).
      exists t. split; [|auto]. apply tails_after_tails. exact Ht.
  - revert n H Hn Hu. induction u as [|c u IHu]; intros n H Hn Hu; [congruence|].
    assert (Hfall : forall n', Re.match_here q (String.append (String c u) y) = Some n' ->
                    String.length (String c u) < n' ->
                    exists t, In t (tails_after (Re.Star k :: q)) /\ t <> []
                              /\ compat t y = true).
    { intros n' H' Hn'.
      destruct (IH (String c u) y n' H' Hn' ltac:(discriminate)) as (t & Ht & Hne & Hc).
      exists t. split; [|auto]. right. apply tails_after_tails. exact Ht. }
    rewrite append_cons, match_here_star_cons in H.
    destruct (Re.in_class k c).
    + destruct (Re.match_here (Re.Star k :: q) (String.append u y)) as [m|] eqn:Hm.
      * inversion H; subst n. cbn [String.length] in Hn.
        destruct u as [|c' u].
        -- exists (Re.Star k :: q). split; [left; reflexivity|].
           split; [discriminate|].
           rewrite append_empty_l in Hm. apply (compat_of_match_whole _ _ _ Hm).
        -- apply (IHu m eq_refl); [lia|discriminate].
      * rewrite <- append_cons in H. apply (Hfall n H Hn).
    + rewrite <- append_cons in H. apply (Hfall n H Hn).
Qed.

(** ** Patterns that match without backtracking *)

Lemma disjoint_spec (k k' : Re.cclass) (c : ascii) :
  disjoint k k' = true -> Re.in_class k c = true -> Re.in_class k' c = false.
Proof.
  unfold disjoint. rewrite forallb_forall. intros H Hk.
  specialize (H (nat_of_ascii c)). rewrite ascii_nat_embedding in H.
  rewrite Hk in H. cbn [andb] in H.
  destruct (Re.in_class k' c); [|reflexivity].
  discriminate H. apply in_seq. pose proof (nat_ascii_bounded c). lia.
Qed.

Lemma match_here_one_positive' (k : Re.cclass) (q : Re.regex) (s : string) (n : nat) :
  Re.match_here (Re.One k :: q) s = Some n -> 0 < n.
Proof. apply match_here_one_positive. reflexivity. Qed.

(** A match of such a pattern depends on the text it takes only: what
    follows can be changed. *)
Lemma match_extend (q : Re.regex) :
  wfb q = true ->
  forall u y y' n,
    Re.match_here q (String.append u y) = Some n ->
    n <= String.length u ->
    Re.match_here q (String.append u y') = Some n.
Proof.
  induction q as [|[k|k] q IH]; intros Hwf u y y' n H Hn.
  - rewrite match_here_nil in *. exact H.
  - destruct u as [|c u].
    + apply match_here_one_positive' in H. cbn in Hn. lia.
    + rewrite append_cons, match_here_one_cons in *.
      destruct (Re.in_class k c); [|discriminate].
      destruct (Re.match_here q (String.append u y)) as [m|] eqn:Hm; [|discriminate].
      cbn in H. inversion H; subst n. cbn [String.length] in Hn.
      rewrite (IH Hwf u y y' m Hm) by lia. reflexivity.
  - cbn [wfb] in Hwf. destruct q as [|[k'|k'] q']; try discriminate.
    apply andb_true_iff in Hwf. destruct Hwf as [Hdis Hwf].
    revert n H Hn. induction u as [|c u IHu]; intros n H Hn.
    + rewrite append_empty_l, ?match_here_star_nil in H.
      assert (0 < n).
      { destruct y as [|c y].
        - rewrite match_here_star_nil in H. apply match_here_one_positive' in H. exact H.
        - rewrite match_here_star_cons in H. destruct (Re.in_class k c).
          + destruct (Re.match_here (Re.Star k :: Re.One k' :: q') y).
            * inversion H. lia.
            * apply match_here_one_positive' in H. exact H.
          + apply match_here_one_positive' in H. exact H. }
      cbn in Hn. lia.
    + rewrite append_cons, match_here_star_cons in *.
      destruct (Re.in_class k c) eqn:Hk.
      * destruct (Re.match_here (Re.Star k :: Re.One k' :: q') (String.append u y))
          as [m|] eqn:Hm.
        -- inversion H; subst n. cbn [String.length] in Hn.
           rewrite (IHu m eq_refl) by lia. reflexivity.
        -- rewrite match_here_one_cons, (disjoint_spec _ _ _ Hdis Hk) in H.
           discriminate.
      * rewrite <- append_cons in *. apply (IH Hwf _ _ _ _ H Hn).
Qed.

(** ** Literal patterns *)

Lemma match_lits_inv (x : string) (t : Re.regex) :
  forall s n,
    Re.match_here (lits x ++ t) s = Some n ->
    exists s' n',
      s = String.append x s' /\ n = String.length x + n'
      /\ Re.match_here t s' = Some n'.
Proof.
  induction x as [|c x IH]; intros s n H.
  - exists s, n. auto.
  - cbn [lits app] in H. destruct s as [|c' s]; [discriminate|].
    rewrite match_here_one_cons in H. cbn [Re.in_class] in H.
    destruct (Ascii.eqb_spec c c') as [<-|]; [|discriminate].
    destruct (Re.match_here (lits x ++ t) s) as [m|] eqn:Hm; [|discriminate].
    cbn in H. inversion H; subst n.
    destruct (IH _ _ Hm) as (s' & n' & -> & -> & Ht).
    exists s', n'. auto.
Qed.

Lemma match_lits (x : string) (t : Re.regex) (s' : string) (n' : nat) :
  Re.match_here t s' = Some n' ->
  Re.match_here (lits x ++ t) (String.append x s') = Some (String.length x + n').
Proof.
  intros H. induction x as [|c x IH]; [exact H|].
  cbn [lits app]. rewrite append_cons, match_here_one_cons. cbn [Re.in_class].
  rewrite Ascii.eqb_refl, IH. reflexivity.
Qed.

Lemma wfb_lits (x : string) : wfb (lits x) = true.
Proof. induction x as [|c x IH]; [reflexivity|exact IH]. Qed.

Lemma as_literal_lits (p : Re.regex) (pl : string) :
  as_literal p = Some pl -> p = lits pl.
Proof.
  revert pl. induction p as [|[k|k] p IH]; intros pl H; cbn in H.
  - inversion H. reflexivity.
  - destruct k; try discriminate.
    destruct (as_literal p) as [x|]; [|discriminate]. inversion H.
    cbn [lits]. rewrite (IH x eq_refl). reflexivity.
  - discriminate.
Qed.

Lemma lit_splits_spec (q : Re.regex) :
  forall x t, In (x, t) (lit_splits q) -> q = lits x ++ t.
Proof.
  induction q as [|i q IH]; intros x t H.
  - destruct H as [H|[]]. inversion H. reflexivity.
  - cbn [lit_splits] in H. destruct H as [H|H]; [inversion H; reflexivity|].
    destruct i as [k|k]; [|destruct H]. destruct k; try destruct H.
    apply in_map_iff in H. destruct H as ([x' t'] & Heq & Hin).
    cbn [fst snd] in Heq. inversion Heq; subst. cbn [lits app].
    rewrite <- (IH _ _ Hin). reflexivity.
Qed.

(** ** The shape of a substitution *)

Lemma absent_cons (q : Re.regex) (c : ascii) (s : string) :
  absent q (String c s) <-> Re.match_here q (String c s) = None /\ absent q s.
Proof.
  unfold absent. cbn [Re.search].
  destruct (Re.match_here q (String c s)); [split; [discriminate|intros [H _]; discriminate]|].
  destruct (Re.search q s) as [[i n]|]; split; try tauto; try discriminate.
  intros [_ H]. discriminate.
Qed.

Lemma absent_here (q : Re.regex) (s : string) :
  absent q s -> Re.match_here q s = None.
Proof. apply search_none_here. Qed.

Lemma absent_empty (q : Re.regex) :
  Re.match_here q EmptyString = None -> absent q EmptyString.
Proof. unfold absent. cbn [Re.search]. intros ->. reflexivity. Qed.

(** The output of a substitution begins with a copy of the input up to the
    first match; there the input has a match and the output the
    replacement, or both end. *)
Lemma sub_from_head (p : Re.regex) (r : string) :
  starts_with_one p = true ->
  forall s,
    exists u s2,
      s = String.append u s2
      /\ ((s2 = EmptyString /\ Re.sub_from 0 p r s = u)
          \/ exists n z,
               Re.match_here p s2 = Some (S n)
               /\ Re.sub_from 0 p r s = String.append u (String.append r z)).
Proof.
  intros Hp s. induction s as [|c s IH].
  - exists EmptyString, EmptyString. split; [reflexivity|]. left.
    split; [reflexivity|]. cbn [Re.sub_from].
    destruct (Re.match_here p EmptyString) as [n|] eqn:Hm; [|reflexivity].
    destruct p as [|[k|k] p]; discriminate.
  - change (Re.sub_from 0 p r (String c s))
      with (match Re.match_here p (String c s) with
            | Some (S n) => String.append r (Re.sub_from n p r s)
            | Some O => String.append r (String c (Re.sub_from 0 p r s))
            | None => String c (Re.sub_from 0 p r s)
            end).
    destruct (Re.match_here p (String c s)) as [[|n]|] eqn:Hm.
    + apply (match_here_one_positive _ _ _ Hp) in Hm. lia.
    + exists EmptyString, (String c s). split; [reflexivity|]. right.
      exists n, (Re.sub_from n p r s). auto.
    + destruct IH as (u & s2 & -> & [[-> ->]|(n & z & Hn & ->)]).
      * exists (String c u), EmptyString. split; [reflexivity|]. left. auto.
      * exists (String c u), s2. split; [reflexivity|]. right.
        exists n, z. auto.
Qed.

(** ** Where a match can appear after a substitution *)

Lemma no_compat_spec (ts : list Re.regex) (r : string) (t : Re.regex) :
  no_compat ts r = true -> In t ts -> t <> [] -> compat t r = false.
Proof.
  unfold no_compat. rewrite forallb_forall. intros H Hin Hne.
  specialize (H t Hin). destruct t; [congruence|]. cbn [is_nil] in H.
  apply negb_true_iff in H. exact H.
Qed.

Lemma overlap_any (q : Re.regex) (u y : string) (n : nat) :
  Re.match_here q (String.append u y) = Some n ->
  String.length u < n ->
  exists t, In t (tails q) /\ t <> [] /\ compat t y = true.
Proof.
  intros H Hn. destruct u as [|c u].
  - exists q. split; [apply tails_self|]. split.
    + intros ->. rewrite match_here_nil in H. inversion H. subst. cbn in Hn. lia.
    + rewrite append_empty_l in H. apply (compat_of_match_whole _ _ _ H).
  - destruct (overlap_tail q (String c u) y n H Hn ltac:(discriminate))
      as (t & Ht & Hne & Hc).
    exists t. split; [apply tails_after_tails; exact Ht|auto].
Qed.

(** A match in the output that starts in copied text was a match in the
    input, when no match can reach into a replacement. *)
Lemma transfer_plain (q p : Re.regex) (r : string) :
  wfb q = true -> starts_with_one p = true -> no_compat (tails q) r = true ->
  forall x s n,
    Re.match_here q (String.append x (Re.sub_from 0 p r s)) = Some n ->
    Re.match_here q (String.append x s) = Some n.
Proof.
  intros Hwf Hp Hfree x s n H.
  destruct (sub_from_head p r Hp s) as (u & s2 & -> & [[-> Hsub]|(m & z & Hm & Hsub)]);
    rewrite Hsub in H.
  - rewrite append_empty_r. exact H.
  - rewrite <- append_assoc in H. rewrite <- append_assoc.
    destruct (Nat.le_gt_cases n (String.length (String.append x u))) as [Hle|Hgt].
    + apply (match_extend q Hwf _ _ s2 _ H Hle).
    + destruct (overlap_any _ _ _ _ H Hgt) as (t & Ht & Hne & Hc).
      apply compat_prefix in Hc.
      rewrite (no_compat_spec _ _ _ Hfree Ht Hne) in Hc. discriminate.
Qed.

Lemma absent_after_replacement (q : Re.regex) (r X : string) :
  starts_nowhere_in q r = true -> absent q X -> absent q (String.append r X).
Proof.
  intros H HX. induction r as [|c r IH]; [exact HX|].
  unfold starts_nowhere_in in H. cbn [suffixes forallb] in H.
  apply andb_true_iff in H. destruct H as [Hc Hr].
  rewrite append_cons. apply absent_cons. split; [|apply IH; exact Hr].
  destruct (Re.match_here q (String c (String.append r X))) as [n|] eqn:Hm;
    [|reflexivity].
  rewrite <- append_cons in Hm. apply compat_of_match in Hm.
  rewrite Hm in Hc. discriminate.
Qed.

(** The induction behind every statement that a pattern matches nowhere
    in the output of a substitution. *)
Lemma sub_absent_gen (q p : Re.regex) (r : string) (Good : string -> Prop) :
  starts_with_one p = true ->
  starts_nowhere_in q r = true ->
  (forall c s, Good (String c s) -> Good s) ->
  (Good EmptyString -> absent q EmptyString) ->
  (forall c s, Good (String c s) -> Re.match_here p (String c s) = None ->
               Re.match_here q (String c (Re.sub_from 0 p r s)) = None) ->
  forall s j, Good s -> absent q (Re.sub_from j p r s).
Proof.
  intros Hp Hr Htail Hnil Hcopy s.
  induction s as [|c s IH]; intros j Hgood.
  - assert (Re.sub_from j p r EmptyString = EmptyString) as ->.
    { destruct j; [|reflexivity]. cbn [Re.sub_from].
      destruct (Re.match_here p EmptyString) as [n|] eqn:Hm; [|reflexivity].
      destruct p as [|[k|k] p]; discriminate. }
    apply Hnil. exact Hgood.
  - destruct j as [|j]; [|apply IH; apply (Htail c); exact Hgood].
    change (Re.sub_from 0 p r (String c s))
      with (match Re.match_here p (String c s) with
            | Some (S n) => String.append r (Re.sub_from n p r s)
            | Some O => String.append r (String c (Re.sub_from 0 p r s))
            | None => String c (Re.sub_from 0 p r s)
            end).
    destruct (Re.match_here p (String c s)) as [[|n]|] eqn:Hm.
    + apply (match_here_one_positive _ _ _ Hp) in Hm. lia.
    + apply absent_after_replacement; [exact Hr|].
      apply IH. apply (Htail c). exact Hgood.
    + apply absent_cons. split.
      * apply (Hcopy c s Hgood Hm).
      * apply IH. apply (Htail c). exact Hgood.
Qed.

Lemma absent_tail (q : Re.regex) (c : ascii) (s : string) :
  absent q (String c s) -> absent q s.
Proof. intros H. apply absent_cons in H. tauto. Qed.

(** A pattern that cannot share a character with the replacement and that
    matched nowhere in the input matches nowhere in the output. *)
Lemma absent_preserved (q p : Re.regex) (r : string) :
  wfb q = true -> starts_with_one p = true -> overlap_free q r = true ->
  forall s j, absent q s -> absent q (Re.sub_from j p r s).
Proof.
  intros Hwf Hp Hfree. unfold overlap_free in Hfree.
  apply andb_true_iff in Hfree. destruct Hfree as [Hfree Hstart].
  apply (sub_absent_gen q p r (absent q) Hp Hstart).
  - apply absent_tail.
  - auto.
  - intros c s Habs _.
    destruct (Re.match_here q (String c (Re.sub_from 0 p r s))) as [n|] eqn:Hm;
      [|reflexivity].
    apply (transfer_plain q p r Hwf Hp Hfree (String c EmptyString) s n) in Hm.
    rewrite append_cons, append_empty_l in Hm.
    apply absent_here in Habs. congruence.
Qed.

(** The pattern of a rule matches nowhere in the output of the rule, when
    it cannot share a character with the replacement. *)
Lemma absent_own (p : Re.regex) (r : string) :
  wfb p = true -> starts_with_one p = true -> overlap_free p r = true ->
  forall s j, absent p (Re.sub_from j p r s).
Proof.
  intros Hwf Hp Hfree s j. unfold overlap_free in Hfree.
  apply andb_true_iff in Hfree. destruct Hfree as [Hfree Hstart].
  apply (sub_absent_gen p p r (fun _ => True) Hp Hstart); auto.
  - intros _. apply absent_empty. destruct p as [|[k|k] p]; try discriminate.
    reflexivity.
  - intros c s0 _ Hnone.
    destruct (Re.match_here p (String c (Re.sub_from 0 p r s0))) as [n|] eqn:Hm;
      [|reflexivity].
    apply (transfer_plain p p r Hwf Hp Hfree (String c EmptyString) s0 n) in Hm.
    rewrite append_cons, append_empty_l in Hm. congruence.
Qed.

(** ** A replacement that completes a match *)

Lemma append_eq_cases (U : string) :
  forall A x B,
    String.append U A = String.append x B ->
    (exists v, v <> EmptyString /\ x = String.append U v /\ A = String.append v B)
    \/ (U = x /\ A = B)
    \/ (exists v, v <> EmptyString /\ U = String.append x v /\ B = String.append v A).
Proof.
  induction U as [|c U IH]; intros A x B H.
  - rewrite append_empty_l in H. destruct x as [|c x].
    + right. left. auto.
    + left. exists (String c x). split; [discriminate|]. auto.
  - destruct x as [|c' x].
    + right. right. exists (String c U). split; [discriminate|].
      rewrite append_empty_l in H. auto.
    + rewrite !append_cons in H. inversion H; subst c'.
      destruct (IH _ _ _ H2) as [(v & Hv & -> & ->)|[[-> ->]|(v & Hv & -> & ->)]].
      * left. exists v. auto.
      * right. left. auto.
      * right. right. exists v. auto.
Qed.

Lemma suffix_in_suffixes (U v : string) :
  v <> EmptyString -> In v (suffixes (String.append U v)).
Proof.
  intros Hv. induction U as [|c U IH].
  - rewrite append_empty_l. destruct v; [congruence|]. left. reflexivity.
  - rewrite append_cons. right. exact IH.
Qed.

Lemma compat_lits_agree (v : string) :
  forall B r z, String.append v B = String.append r z -> compat (lits v) r = true.
Proof.
  induction v as [|c v IH]; intros B r z H; [reflexivity|].
  destruct r as [|c' r]; [reflexivity|].
  rewrite !append_cons in H. inversion H; subst c'.
  cbn [lits compat Re.in_class]. rewrite Ascii.eqb_refl. apply (IH _ _ _ H2).
Qed.

Lemma match_lits_self (w rest : string) :
  Re.match_here (lits w) (String.append w rest) = Some (String.length w).
Proof.
  pose proof (match_lits w [] rest 0 (match_here_nil rest)) as H.
  rewrite app_nil_r, Nat.add_0_r in H. exact H.
Qed.

(** A match in the output that starts in copied text was a match in the
    input, or ends with a replacement that stands right after the literal
    [x]; the input then had [x] followed by the literal of the rule. *)
Lemma transfer_special (x pl r : string) (t : Re.regex) (p : Re.regex) :
  wfb (lits x ++ t) = true ->
  p = lits pl -> starts_with_one p = true ->
  forallb (fun x' => negb (compat (lits x') r)) (suffixes x) = true ->
  no_compat (tails_after t) r = true ->
  forall x0 s n,
    Re.match_here (lits x ++ t) (String.append x0 (Re.sub_from 0 p r s)) = Some n ->
    Re.match_here (lits x ++ t) (String.append x0 s) = Some n
    \/ Re.match_here (lits (String.append x pl)) (String.append x0 s) <> None.
Proof.
  intros Hwf Hpl Hp Hc1 Hc2 x0 s n H.
  destruct (sub_from_head p r Hp s) as (u & s2 & -> & [[-> Hsub]|(m & z & Hm & Hsub)]);
    rewrite Hsub in H.
  - left. rewrite append_empty_r. exact H.
  - rewrite <- append_assoc in H. rewrite <- !append_assoc.
    destruct (Nat.le_gt_cases n (String.length (String.append x0 u))) as [Hle|Hgt].
    + left. apply (match_extend _ Hwf _ _ s2 _ H Hle).
    + destruct (match_lits_inv _ _ _ _ H) as (s' & n' & Heq & -> & Ht).
      destruct (append_eq_cases _ _ _ _ Heq)
        as [(v & Hv & Hx & Hrz)|[[HU Hrz]|(v & Hv & HU & Hs')]].
      * exfalso. symmetry in Hrz. apply compat_lits_agree in Hrz.
        rewrite forallb_forall in Hc1.
        assert (Hin : In v (suffixes x))
          by (rewrite Hx; apply suffix_in_suffixes; exact Hv).
        specialize (Hc1 v Hin). rewrite Hrz in Hc1. discriminate.
      * right. rewrite HU. subst p.
        rewrite <- (app_nil_r (lits pl)) in Hm.
        destruct (match_lits_inv _ _ _ _ Hm) as (s3 & n3 & -> & _ & _).
        rewrite <- append_assoc, match_lits_self. discriminate.
      * exfalso. subst s'. rewrite HU, length_append in Hgt.
        destruct (overlap_tail t v _ n' Ht ltac:(lia) Hv) as (t' & Ht' & Hne & Hc).
        apply compat_prefix in Hc.
        rewrite (no_compat_spec _ _ _ Hc2 Ht' Hne) in Hc. discriminate.
Qed.

Lemma absent_special (x pl r : string) (t q p : Re.regex) :
  q = lits x ++ t -> wfb q = true ->
  p = lits pl -> starts_with_one p = true ->
  starts_nowhere_in q r = true ->
  forallb (fun x' => negb (compat (lits x') r)) (suffixes x) = true ->
  no_compat (tails_after t) r = true ->
  forall s j,
    absent q s -> absent (lits (String.append x pl)) s ->
    absent q (Re.sub_from j p r s).
Proof.
  intros -> Hwf Hpl Hp Hstart Hc1 Hc2 s j Hq Hl.
  apply (sub_absent_gen (lits x ++ t) p r
           (fun s => absent (lits x ++ t) s
                     /\ absent (lits (String.append x pl)) s) Hp Hstart).
  - intros c s0 [H1 H2]. split; eapply absent_tail; eassumption.
  - tauto.
  - intros c s0 [H1 H2] _.
    destruct (Re.match_here (lits x ++ t) (String c (Re.sub_from 0 p r s0)))
      as [n|] eqn:Hm; [|reflexivity].
    destruct (transfer_special x pl r t p Hwf Hpl Hp Hc1 Hc2
                (String c EmptyString) s0 n Hm) as [H|H];
      rewrite append_cons, append_empty_l in H.
    + apply absent_here in H1. congruence.
    + apply absent_here in H2. congruence.
  - auto.
Qed.

(** ** Patterns that cover one another *)

(** Where the literal [L] stands, a pattern that matches the whole of [L]
    matches. *)
Lemma absent_literal (q : Re.regex) (L s : string) :
  wfb q = true -> Re.fullmatch q L = true -> absent q s -> absent (lits L) s.
Proof.
  intros Hwf Hfull. unfold Re.fullmatch in Hfull.
  destruct (Re.match_here q L) as [n|] eqn:Hm; [|discriminate].
  apply Nat.eqb_eq in Hfull. subst n.
  assert (Hat : forall s0, Re.match_here q s0 = None ->
                           Re.match_here (lits L) s0 = None).
  { intros s0 Hnone.
    destruct (Re.match_here (lits L) s0) as [n|] eqn:Hl; [|reflexivity].
    rewrite <- (app_nil_r (lits L)) in Hl.
    destruct (match_lits_inv _ _ _ _ Hl) as (s' & n' & -> & _ & _).
    rewrite <- (append_empty_r L) in Hm at 1.
    rewrite (match_extend q Hwf L EmptyString s' _ Hm (Nat.le_refl _)) in Hnone.
    discriminate. }
  induction s as [|c s IH]; intros Habs.
  - apply absent_empty. apply Hat. apply absent_here. exact Habs.
  - apply absent_cons in Habs. destruct Habs as [H1 H2].
    apply absent_cons. split; [apply Hat; exact H1|apply IH; exact H2].
Qed.

Lemma match_lits_startswith (L s : string) (n : nat) :
  Re.match_here (lits L) s = Some n -> Str.startswith L s = true.
Proof.
  intros H. rewrite <- (app_nil_r (lits L)) in H.
  destruct (match_lits_inv _ _ _ _ H) as (s' & n' & -> & _ & _).
  apply startswith_append.
Qed.

Lemma contains_absent (L s : string) :
  Str.contains L s = false -> absent (lits L) s.
Proof.
  induction s as [|c s IH]; intros H; cbn [Str.contains] in H;
    apply orb_false_elim in H; destruct H as [H1 H2].
  - apply absent_empty.
    destruct (Re.match_here (lits L) EmptyString) as [n|] eqn:Hm; [|reflexivity].
    apply match_lits_startswith in Hm. congruence.
  - apply absent_cons. split; [|apply IH; exact H2].
    destruct (Re.match_here (lits L) (String c s)) as [n|] eqn:Hm; [|reflexivity].
    apply match_lits_startswith in Hm. congruence.
Qed.

(** A match of a pattern holds a match of each of its suffixes. *)
Lemma match_tail (i : Re.item) (q : Re.regex) :
  forall s n, Re.match_here (i :: q) s = Some n -> ~ absent q s.
Proof.
  destruct i as [k|k].
  - intros s n H Habs. destruct s as [|c s]; [discriminate|].
    rewrite match_here_one_cons in H. destruct (Re.in_class k c); [|discriminate].
    apply absent_tail, absent_here in Habs. rewrite Habs in H. discriminate.
  - intros s. induction s as [|c s IH]; intros n H Habs.
    + rewrite match_here_star_nil in H. apply absent_here in Habs. congruence.
    + rewrite match_here_star_cons in H.
      pose proof (absent_here _ _ Habs) as Hhere.
      destruct (Re.in_class k c); [|congruence].
      destruct (Re.match_here (Re.Star k :: q) s) as [m|] eqn:Hm; [|congruence].
      apply (IH m eq_refl). eapply absent_tail. exact Habs.
Qed.

Lemma absent_of_tail (q t : Re.regex) :
  In t (tails q) -> forall s, absent t s -> absent q s.
Proof.
  induction q as [|i q IH]; intros Hin.
  - destruct Hin as [<-|[]]. auto.
  - destruct Hin as [<-|Hin]; [auto|].
    specialize (IH Hin). intros s.
    induction s as [|c s IHs]; intros Habs.
    + apply absent_empty.
      destruct (Re.match_here (i :: q) EmptyString) as [n|] eqn:Hm; [|reflexivity].
      exfalso. apply (match_tail _ _ _ _ Hm). apply IH. exact Habs.
    + apply absent_cons. split.
      * destruct (Re.match_here (i :: q) (String c s)) as [n|] eqn:Hm; [|reflexivity].
        exfalso. apply (match_tail _ _ _ _ Hm). apply IH. exact Habs.
      * apply IHs. eapply absent_tail. exact Habs.
Qed.

(** ** The patterns that match nowhere, rule after rule *)

Lemma keep_sound (Q : list Re.regex) (q p : Re.regex) (r s : string) :
  settled Q s -> In q Q -> starts_with_one p = true ->
  keep Q q p r = true ->
  absent q (Re.sub_from 0 p r s).
Proof.
  intros HQ Hin Hp Hkeep. destruct (HQ q Hin) as [Hwf Habs].
  unfold keep in Hkeep. destruct (overlap_free q r) eqn:Hfree.
  - apply absent_preserved; assumption.
  - unfold keep_special in Hkeep.
    destruct (as_literal p) as [pl|] eqn:Hpl; [|discriminate].
    apply as_literal_lits in Hpl.
    apply andb_true_iff in Hkeep. destruct Hkeep as [Hstart Hex].
    apply existsb_exists in Hex. destruct Hex as ([x t] & Hsplit & Hsp).
    apply lit_splits_spec in Hsplit.
    unfold special_split in Hsp. cbn [fst snd] in Hsp.
    apply andb_true_iff in Hsp. destruct Hsp as [Hsp Hpre].
    apply andb_true_iff in Hsp. destruct Hsp as [Hc1 Hc2].
    apply existsb_exists in Hpre. destruct Hpre as (q' & Hq' & Hfull).
    destruct (HQ q' Hq') as [Hwf' Habs'].
    apply (absent_special x pl r t q p); try assumption.
    apply (absent_literal q'); assumption.
Qed.

Lemma step_sound (Q : list Re.regex) (rule : Codemod.rule) (s : string) :
  settled Q s -> settled (step Q rule) (Re.sub (fst rule) (snd rule) s).
Proof.
  intros HQ q Hin. unfold step in Hin. unfold Re.sub.
  destruct (starts_with_one (Re.compile (fst rule))) eqn:Hp; [|destruct Hin].
  assert (Hkept : forall q0,
             In q0 (List.filter
                      (fun q1 => keep Q q1 (Re.compile (fst rule)) (snd rule)) Q) ->
             wfb q0 = true
             /\ absent q0 (Re.sub_from 0 (Re.compile (fst rule)) (snd rule) s)).
  { intros q0 H0. apply filter_In in H0. destruct H0 as [H0 Hkeep].
    split; [apply (HQ q0 H0)|]. apply (keep_sound Q); assumption. }
  destruct (wfb (Re.compile (fst rule)) && overlap_free (Re.compile (fst rule)) (snd rule))
    eqn:Hown; [|apply Hkept; exact Hin].
  destruct Hin as [<-|Hin]; [|apply Hkept; exact Hin].
  apply andb_true_iff in Hown. destruct Hown as [Hwf Hfree].
  split; [exact Hwf|]. apply absent_own; assumption.
Qed.

Lemma table_sound (R : list Codemod.rule) :
  forall Q s, settled Q s -> settled (fold_left step R Q) (Codemod.apply_table R s).
Proof.
  unfold Codemod.apply_table.
  induction R as [|rule R IH]; intros Q s HQ; [exact HQ|].
  cbn [fold_left]. apply IH. apply step_sound. exact HQ.
Qed.

Lemma apply_all_flat (s : string) :
  Codemod.apply_all s = Codemod.apply_table Codemod.ALL_RULES s.
Proof.
  unfold Codemod.apply_all, Codemod.ALL_RULES, Codemod.ALL_TABLES, Codemod.apply_table.
  cbn [concat]. rewrite !fold_left_app. reflexivity.
Qed.

Lemma unsettled_absent (text : string) :
  Forall (fun L => Str.contains L text = false) UNSETTLED ->
  settled (map lits UNSETTLED) text.
Proof.
  intros H q Hin. apply in_map_iff in Hin. destruct Hin as (L & <- & HL).
  rewrite List.Forall_forall in H.
  split; [apply wfb_lits|]. apply contains_absent. apply (H L HL).
Qed.

Lemma all_rules_covered : all_covered = true.
Proof. vm_compute. reflexivity. Qed.

Lemma covered_absent (F : list Re.regex) (q : Re.regex) (s : string) :
  settled F s -> covered F q = true -> absent q s.
Proof.
  intros HF Hc. unfold covered in Hc.
  apply existsb_exists in Hc. destruct Hc as (t & Ht & Hex).
  apply existsb_exists in Hex. destruct Hex as (q' & Hq' & Heq).
  apply bool_decide_eq_true in Heq. subst t.
  apply (absent_of_tail q q' Ht). apply (HF q' Hq').
Qed.

(** C1, amended.  For every text that contains none of
    [.white.opacity(0.28)], [.white.opacity(0.29)], [.white.opacity(0.48)],
    [.white.opacity(0.49)], [.white.opacity(0.68)], [.white.opacity(0.69)],
    no rule of any table matches the output of the pipeline, and a second
    application of the pipeline produces no further change.  On each of
    the six literals themselves the second application does change the
    output. *)
Theorem second_pass_changes_nothing :
  (forall text : string,
      Forall (fun L => Str.contains L text = false) UNSETTLED ->
      no_match_in Codemod.ALL_RULES (Codemod.apply_all text)
      /\ idempotent_at text)
  /\ Forall (fun L => ~ idempotent_at L) UNSETTLED.
Proof.
  split.
  - intros text Hfree.
    assert (Hno : no_match_in Codemod.ALL_RULES (Codemod.apply_all text)).
    { pose proof (table_sound Codemod.ALL_RULES _ _ (unsettled_absent text Hfree)) as HF.
      fold settled_set in HF. rewrite <- apply_all_flat in HF.
      pose proof all_rules_covered as Hcov. unfold all_covered in Hcov.
      rewrite forallb_forall in Hcov.
      apply List.Forall_forall. intros rule Hin.
      apply (covered_absent settled_set); [exact HF|apply Hcov; exact Hin]. }
    split; [exact Hno|]. unfold idempotent_at. apply apply_all_no_match. exact Hno.
  - unfold idempotent_at, UNSETTLED.
    repeat (apply List.Forall_cons; [vm_compute; discriminate|]).
    apply List.Forall_nil.
Qed.

Lemma second_pass_changes_nothing_witness :
  Codemod.apply_all ".white.opacity(0.72) Color.white.opacity(0.5).opacity(0.68)"
  = "DesignSystem.Colors.textSecondary ColorDesignSystem.Colors.textTertiary.opacity(0.70)"
  /\ idempotent_at ".white.opacity(0.72) Color.white.opacity(0.5).opacity(0.68)".
Proof.
  split; [vm_compute; reflexivity|].
  apply (proj1 second_pass_changes_nothing).
  unfold UNSETTLED.
  repeat (apply List.Forall_cons; [vm_compute; reflexivity|]).
  apply List.Forall_nil.
Defined.
